(** * Prize verification engine of lottery_scan (server.go)

    A shallow embedding of the scoring core of [server.go]: the two
    number-set helpers [intersect] and [combinations], the three verifiers
    ([DoubleColorVerifier], [LottoVerifier], [Permutation5Verifier]) and the
    per-ticket loop of [verifyHandler], followed by the properties the
    specification states about them.

    Conventions.
    - Go [string] is [string] (a byte sequence, compared bytewise).
    - Go [int64], and [int] on the 64-bit targets the server is built for,
      are [Z] restricted to [-2^63, 2^63); every addition, subtraction and
      multiplication of the source that can leave that range is written
      with [wrap64], Go's two's-complement wrap-around.
    - Slice lengths and the hit counter of [intersect] are [nat]: the
      counter is incremented at most once per element of a slice, so it
      never exceeds a slice length and cannot wrap.
    - [map[string]bool] is [gmap string bool]; a missing key reads as the
      zero value [false]. *)

From stdpp Require Import base list gmap strings pretty.
From Stdlib Require Import ZArith Lia.

Open Scope Z_scope.

(** ** Machine integers *)

Definition min_int64 : Z := - 2 ^ 63.
Definition max_int64 : Z := 2 ^ 63 - 1.

(** The value a 64-bit signed register holds after an operation whose
    mathematical result is [z]. *)
Definition wrap64 (z : Z) : Z := (z + 2 ^ 63) mod 2 ^ 64 - 2 ^ 63.

Definition in_int64 (z : Z) : Prop := min_int64 <= z <= max_int64.

(** ** Data model (section 1 of server.go) *)

Record UserTicket := mkUserTicket {
  Red : list string;
  Blue : list string;
  Multiplier : Z;
  Mode : string
}.

Record LotteryData := mkLotteryData {
  Type_ : string;
  Issue : string;
  Tickets : list UserTicket
}.

Record ResultDetail := mkResultDetail {
  RowIndex : Z;
  Level : Z;
  Prize : Z;
  Status : string
}.

Record VerificationResult := mkVerificationResult {
  TicketIndex : Z;
  OCRData : LotteryData;
  TotalPrize : Z;
  Details : list ResultDetail
}.

Record WinningNumbers := mkWinningNumbers {
  WinRed : list string;
  WinBlue : list string
}.

(** ** Number-set helpers (section 2 of server.go) *)

(** [intersect]: the first loop fills the map [m] from [b], the second
    counts the elements of [a] that [m] maps to [true]. *)
Definition intersect_index (b : list string) : gmap string bool :=
  foldl (fun (m : gmap string bool) x => <[x := true]> m) ∅ b.

Definition intersect_lookup (m : gmap string bool) (x : string) : bool :=
  default false (m !! x).

Definition intersect (a b : list string) : nat :=
  let m := intersect_index b in
  foldl (fun (count : nat) x => if intersect_lookup m x then S count else count)
        0%nat a.

(** [combinations]: recursion on the slice, [r] is a Go [int]. The loop
    that prepends [head] to every element of [withHead] is a [map]. *)
Fixpoint combinations (iterable : list string) (r : Z) : list (list string) :=
  if r =? 0 then [[]]
  else
    match iterable with
    | [] => []
    | head :: tail =>
        let withHead := combinations tail (wrap64 (r - 1)) in
        let result := map (cons head) withHead in
        result ++ combinations tail r
    end.

(** ** Verifiers *)

Definition status_no_win : string := "未中奖".
Definition status_win (money : Z) : string := "中奖: " +:+ pretty money +:+ "元".
Definition status_first_prize : string := "一等奖".
Definition status_unsupported : string := "暂不支持该彩种验奖".

(** *** A. DoubleColorVerifier *)

(** The if/else-if chain of the inner loop body; [(0, 0)] is the initial
    value of [level, money] when no branch fires. *)
Definition DoubleColor_tier (redHits blueHits : nat) : Z * Z :=
  if (redHits =? 6)%nat && (blueHits =? 1)%nat then (1, 5000000)
  else if (redHits =? 6)%nat && (blueHits =? 0)%nat then (2, 100000)
  else if (redHits =? 5)%nat && (blueHits =? 1)%nat then (3, 3000)
  else if (redHits =? 5)%nat && (blueHits =? 0)%nat then (4, 200)
  else if (redHits =? 4)%nat && (blueHits =? 1)%nat then (4, 200)
  else if (redHits =? 4)%nat && (blueHits =? 0)%nat then (5, 10)
  else if (redHits =? 3)%nat && (blueHits =? 1)%nat then (5, 10)
  else if (blueHits =? 1)%nat then (6, 5)
  else (0, 0).

(** [len(win.Blue) > 0 && b == win.Blue[0]] *)
Definition DoubleColor_blueHits (win : WinningNumbers) (b : string) : nat :=
  match WinBlue win with
  | [] => 0%nat
  | b0 :: _ => if bool_decide (b = b0) then 1%nat else 0%nat
  end.

(** One iteration of the inner loop on the state [(bestLevel, totalMoney)]. *)
Definition DoubleColor_inner (win : WinningNumbers) (redComb : list string)
    (st : Z * Z) (b : string) : Z * Z :=
  let '(bestLevel, totalMoney) := st in
  let redHits := intersect redComb (WinRed win) in
  let blueHits := DoubleColor_blueHits win b in
  let '(level, money) := DoubleColor_tier redHits blueHits in
  if 0 <? money then
    (if (bestLevel =? 0) || (level <? bestLevel) then level else bestLevel,
     wrap64 (totalMoney + money))
  else st.

(** One iteration of the outer loop. *)
Definition DoubleColor_outer (t : UserTicket) (win : WinningNumbers)
    (st : Z * Z) (redComb : list string) : Z * Z :=
  foldl (DoubleColor_inner win redComb) st (Blue t).

Definition DoubleColorVerifier_Verify (t : UserTicket) (win : WinningNumbers)
    : Z * Z * string :=
  let redCombs := combinations (Red t) 6 in
  let '(bestLevel, totalMoney) :=
    foldl (DoubleColor_outer t win) (0, 0) redCombs in
  let status := if 0 <? totalMoney then status_win totalMoney else status_no_win in
  (bestLevel, totalMoney, status).

(** *** B. LottoVerifier *)

Definition Lotto_tier (redHits blueHits : nat) : Z * Z :=
  if (redHits =? 5)%nat && (blueHits =? 2)%nat then (1, 10000000)
  else if (redHits =? 5)%nat && (blueHits =? 1)%nat then (2, 200000)
  else if (redHits =? 5)%nat && (blueHits =? 0)%nat then (3, 10000)
  else if (redHits =? 4)%nat && (blueHits =? 2)%nat then (4, 3000)
  else if (redHits =? 4)%nat && (blueHits =? 1)%nat then (5, 300)
  else if (redHits =? 3)%nat && (blueHits =? 2)%nat then (6, 200)
  else if (redHits =? 4)%nat && (blueHits =? 0)%nat then (7, 100)
  else if (redHits =? 3)%nat && (blueHits =? 1)%nat then (8, 15)
  else if (redHits =? 2)%nat && (blueHits =? 2)%nat then (8, 15)
  else if (redHits =? 3)%nat && (blueHits =? 0)%nat then (9, 5)
  else if (redHits =? 2)%nat && (blueHits =? 1)%nat then (9, 5)
  else if (redHits =? 1)%nat && (blueHits =? 2)%nat then (9, 5)
  else if (redHits =? 0)%nat && (blueHits =? 2)%nat then (9, 5)
  else (0, 0).

Definition LottoVerifier_Verify (t : UserTicket) (win : WinningNumbers)
    : Z * Z * string :=
  let redHits := intersect (Red t) (WinRed win) in
  let blueHits := intersect (Blue t) (WinBlue win) in
  let '(level, money) := Lotto_tier redHits blueHits in
  let status := if 0 <? money then status_win money else status_no_win in
  (level, money, status).

(** *** C. Permutation5Verifier *)

(** The loop [for i := 0; i < 5; i++] with its early [break]: [match]
    stays [true] when no position below 5 differs. Indexing is only
    reached when both lengths are 5, so [!!] never misses there. *)
Fixpoint Permutation5_scan (red winRed : list string) (i : nat) (fuel : nat) : bool :=
  match fuel with
  | O => true
  | S fuel' =>
      if bool_decide (red !! i = winRed !! i)
      then Permutation5_scan red winRed (S i) fuel'
      else false
  end.

Definition Permutation5_match (t : UserTicket) (win : WinningNumbers) : bool :=
  if negb (length (Red t) =? 5)%nat || negb (length (WinRed win) =? 5)%nat
  then false
  else Permutation5_scan (Red t) (WinRed win) 0 5.

Definition Permutation5Verifier_Verify (t : UserTicket) (win : WinningNumbers)
    : Z * Z * string :=
  if Permutation5_match t win then (1, 100000, status_first_prize)
  else (0, 0, status_no_win).

(** ** Mock results lookup and the handler (sections 4 and 5 of server.go) *)

(** [strings.Contains]: bytewise, hence case-sensitive, substring test. *)
Fixpoint strings_Contains (s substr : string) : bool :=
  if String.prefix substr s then true
  else
    match s with
    | EmptyString => false
    | String _ s' => strings_Contains s' substr
    end.

Definition label_DoubleColor : string := "双色球".
Definition label_Lotto : string := "大乐透".
Definition label_Permutation5 : string := "排列5".

(** The interface [Verifier] has exactly three implementations; an
    interface variable left [nil] is [None]. *)
Inductive Verifier := DoubleColorVerifier | LottoVerifier | Permutation5Verifier.

Definition Verify (v : Verifier) : UserTicket -> WinningNumbers -> Z * Z * string :=
  match v with
  | DoubleColorVerifier => DoubleColorVerifier_Verify
  | LottoVerifier => LottoVerifier_Verify
  | Permutation5Verifier => Permutation5Verifier_Verify
  end.

(** The if/else-if chain of [verifyHandler] that picks the verifier. *)
Definition select_verifier (lotteryType : string) : option Verifier :=
  if strings_Contains lotteryType label_DoubleColor then Some DoubleColorVerifier
  else if strings_Contains lotteryType label_Lotto then Some LottoVerifier
  else if strings_Contains lotteryType label_Permutation5 then Some Permutation5Verifier
  else None.

(** The row loop [for rowIdx, t := range lottery.Tickets]. [rowIdx + 1] is
    at most a slice length and does not wrap; the two [int64] operations
    do. [int64(t.Multiplier)] is the identity on a 64-bit [int]. *)
Fixpoint verify_rows (verifier : Verifier) (winNum : WinningNumbers)
    (rowIdx : nat) (tickets : list UserTicket) (res : VerificationResult)
    : VerificationResult :=
  match tickets with
  | [] => res
  | t :: rest =>
      let '(level, prize, status) := Verify verifier t winNum in
      let total := wrap64 (prize * Multiplier t) in
      let res' :=
        {| TicketIndex := TicketIndex res;
           OCRData := OCRData res;
           TotalPrize := wrap64 (TotalPrize res + total);
           Details := Details res ++
             [ {| RowIndex := Z.of_nat rowIdx + 1; Level := level;
                  Prize := total; Status := status |} ] |} in
      verify_rows verifier winNum (S rowIdx) rest res'
  end.

(** The zero-valued detail carrying only the unsupported-game status. *)
Definition unsupported_detail : ResultDetail :=
  {| RowIndex := 0; Level := 0; Prize := 0; Status := status_unsupported |}.

Inductive Response :=
| JSON_error (code : Z) (msg : string)
| JSON_ok (code : Z) (body : list VerificationResult).

Section Handler.

(** Library and remote parts the handler is written against:
    [strings.TrimSpace], and the recognizer [callGeminiOCR] (called
    [callQwenOCR] in the second program variant), which either yields
    tickets or an error message. *)
Variable TrimSpace : string -> string.
Variable callGeminiOCR : string -> string -> list LotteryData + string.

Definition getMockWinningNumber (lotteryType issue : string) : WinningNumbers :=
  let issue := TrimSpace issue in
  if strings_Contains lotteryType label_DoubleColor && bool_decide (issue = "2025107")
  then {| WinRed := ["02"; "11"; "15"; "21"; "28"; "33"]; WinBlue := ["07"] |}
  else if strings_Contains lotteryType label_DoubleColor && bool_decide (issue = "2025145")
  then {| WinRed := ["02"; "09"; "15"; "23"; "28"; "33"]; WinBlue := ["06"] |}
  else {| WinRed := ["00"]; WinBlue := ["00"] |}.

(** Body of the loop [for idx, lottery := range ocrResults]. *)
Definition verify_lottery (idx : nat) (lottery : LotteryData) : VerificationResult :=
  let winNum := getMockWinningNumber (Type_ lottery) (Issue lottery) in
  let verifier := select_verifier (Type_ lottery) in
  let res :=
    {| TicketIndex := Z.of_nat idx + 1; OCRData := lottery;
       TotalPrize := 0; Details := [] |} in
  match verifier with
  | Some v => verify_rows v winNum 0 (Tickets lottery) res
  | None =>
      {| TicketIndex := TicketIndex res; OCRData := OCRData res;
         TotalPrize := TotalPrize res;
         Details := Details res ++ [unsupported_detail] |}
  end.

(** [verifyHandler]: [image] is the uploaded form file (absent when
    [FormFile] fails), [apiKey] the value of the API-key environment
    variable. The second program variant reads [DASHSCOPE_API_KEY] and
    names it in the 500 message; the rest of the handler is identical. *)
Definition verifyHandler (image : option string) (apiKey : string) : Response :=
  match image with
  | None => JSON_error 400 "请上传名为 'image' 的文件"
  | Some fileBytes =>
      if bool_decide (apiKey = "") then JSON_error 500 "服务端未配置 GEMINI_API_KEY"
      else
        match callGeminiOCR fileBytes apiKey with
        | inr err => JSON_error 500 ("AI 识别失败: " +:+ err)
        | inl ocrResults => JSON_ok 200 (imap verify_lottery ocrResults)
        end
  end.

End Handler.

(** ** Reference notions used by the statements *)

(** Binomial coefficient by Pascal's rule. *)
Fixpoint binomial (n k : nat) : nat :=
  match k, n with
  | O, _ => 1
  | S _, O => 0
  | S k', S n' => binomial n' k' + binomial n' k
  end.

Fixpoint sum_Z (l : list Z) : Z :=
  match l with
  | [] => 0
  | x :: l' => x + sum_Z l'
  end.

(** The tokens found at the positions [idxs] of [tokens]. *)
Definition select (tokens : list string) (idxs : list nat) : list string :=
  map (fun i => default "" (tokens !! i)) idxs.

(** All size-[k] subsequences, by the same head/tail split as
    [combinations] but with a natural-number size. *)
Fixpoint subseqs {A : Type} (l : list A) (k : nat) : list (list A) :=
  match k with
  | O => [[]]
  | S k' =>
      match l with
      | [] => []
      | x :: l' => map (cons x) (subseqs l' k') ++ subseqs l' k
      end
  end.

(** The (combination, blue token) pairs in the order the two loops of
    [DoubleColorVerifier.Verify] visit them. *)
Definition DoubleColor_pairs (t : UserTicket) : list (list string * string) :=
  redComb ← combinations (Red t) 6; b ← Blue t; [(redComb, b)].

(** Tier tables as the specification lists them: an entry
    [(redHits, blueHits, (rank, payout))]. *)
Definition table_lookup (tbl : list (nat * nat * (Z * Z))) (redHits blueHits : nat)
    : option (Z * Z) :=
  snd <$> List.find (fun e => (e.1.1 =? redHits)%nat && (e.1.2 =? blueHits)%nat) tbl.

Definition tier_entry (redHits blueHits : nat) (rank payout : Z)
    : nat * nat * (Z * Z) :=
  (redHits, blueHits, (rank, payout)).

Definition DoubleColor_table : list (nat * nat * (Z * Z)) :=
  [ tier_entry 6 1 1 5000000; tier_entry 6 0 2 100000; tier_entry 5 1 3 3000;
    tier_entry 5 0 4 200; tier_entry 4 1 4 200; tier_entry 4 0 5 10;
    tier_entry 3 1 5 10 ].

(** The table, then "any other pair with blueHits = 1 is rank 6, payout 5",
    then no tier. *)
Definition DoubleColor_tier_spec (redHits blueHits : nat) : option (Z * Z) :=
  match table_lookup DoubleColor_table redHits blueHits with
  | Some rp => Some rp
  | None => if (blueHits =? 1)%nat then Some (6, 5) else None
  end.

Definition Lotto_table : list (nat * nat * (Z * Z)) :=
  [ tier_entry 5 2 1 10000000; tier_entry 5 1 2 200000; tier_entry 5 0 3 10000;
    tier_entry 4 2 4 3000; tier_entry 4 1 5 300; tier_entry 3 2 6 200;
    tier_entry 4 0 7 100; tier_entry 3 1 8 15; tier_entry 2 2 8 15;
    tier_entry 3 0 9 5; tier_entry 2 1 9 5; tier_entry 1 2 9 5;
    tier_entry 0 2 9 5 ].

(** "blueHits = 1 exactly when the blue token equals winning.blue[0]
    (0 when winning.blue is empty)". *)
Definition DoubleColor_blueHits_spec (win : WinningNumbers) (b : string) : nat :=
  if bool_decide (head (WinBlue win) = Some b) then 1%nat else 0%nat.

(** The tier, if any, of one (combination, blue token) pair. *)
Definition DoubleColor_pair_spec (win : WinningNumbers) (p : list string * string)
    : option (Z * Z) :=
  DoubleColor_tier_spec (intersect p.1 (WinRed win)) (DoubleColor_blueHits_spec win p.2).

(** The (rank, payout) of the pairs that hit a tier, in visiting order. *)
Definition DoubleColor_hits (t : UserTicket) (win : WinningNumbers) : list (Z * Z) :=
  omap (DoubleColor_pair_spec win) (DoubleColor_pairs t).

(** The mathematical sum of the payouts of the hitting pairs. *)
Definition DoubleColor_exact_total (t : UserTicket) (win : WinningNumbers) : Z :=
  sum_Z (map snd (DoubleColor_hits t win)).

(** The accumulation both loops perform on [(bestLevel, totalMoney)] for a
    pair that resolved to [(level, money)]. *)
Definition DoubleColor_acc (st : Z * Z) (lm : Z * Z) : Z * Z :=
  let '(bestLevel, totalMoney) := st in
  let '(level, money) := lm in
  if 0 <? money then
    (if (bestLevel =? 0) || (level <? bestLevel) then level else bestLevel,
     wrap64 (totalMoney + money))
  else st.

Definition with_red (t : UserTicket) (red : list string) : UserTicket :=
  {| Red := red; Blue := Blue t; Multiplier := Multiplier t; Mode := Mode t |}.

(** A hitting pair has a rank from 1 to 6 and a payout from 5 to 5,000,000. *)
Definition hit_ok (lm : Z * Z) : Prop := 1 <= lm.1 <= 6 /\ 5 <= lm.2 <= 5000000.

(** The payout a pair contributes to the sum: its tier payout, or 0. *)
Definition DoubleColor_money (win : WinningNumbers) (redComb : list string) (b : string) : Z :=
  (default (0, 0) (DoubleColor_pair_spec win (redComb, b))).2.

(** The mocked drawing 2025107. *)
Definition draw_2025107 : WinningNumbers :=
  {| WinRed := ["02"; "11"; "15"; "21"; "28"; "33"]; WinBlue := ["07"] |}.

(** Both lengths are 5 and the lists agree at every position. *)
Definition Permutation5_matches (t : UserTicket) (win : WinningNumbers) : Prop :=
  length (Red t) = 5%nat /\ length (WinRed win) = 5%nat
  /\ forall i, (i < 5)%nat -> Red t !! i = WinRed win !! i.

(** [label] occurs in [s] as a contiguous run of bytes. *)
Definition occurs_in (label s : string) : Prop :=
  exists pre suf, s = pre +:+ label +:+ suf.

(** What one row adds: [prize * int64(t.Multiplier)] in [int64]. *)
Definition row_total (v : Verifier) (win : WinningNumbers) (t : UserTicket) : Z :=
  wrap64 ((Verify v t win).1.2 * Multiplier t).

Definition row_detail (v : Verifier) (win : WinningNumbers) (rowIdx : nat) (t : UserTicket)
    : ResultDetail :=
  {| RowIndex := Z.of_nat rowIdx + 1; Level := (Verify v t win).1.1;
     Prize := row_total v win t; Status := (Verify v t win).2 |}.

(** A multi-number row with ten reds. *)
Definition row_of_ten : UserTicket :=
  {| Red := ["01"; "02"; "03"; "04"; "05"; "06"; "07"; "08"; "09"; "10"];
     Blue := ["07"]; Multiplier := 1; Mode := "" |}.

(** ** Recognizer output cleaning (section 3 of server.go) *)

(** [fmt.Sprintf("%02d", z)]: the decimal digits of [z], padded with zeros
    to width 2, a minus sign counting towards the width. *)
Definition digit_char (d : Z) : Ascii.ascii := Ascii.ascii_of_N (Z.to_N (48 + d)).

Definition zero_pad (width : nat) (digits : string) : string :=
  String.string_of_list_ascii (replicate (width - String.length digits) (digit_char 0))
  +:+ digits.

Definition Sprintf_02d (z : Z) : string :=
  if z <? 0 then "-" +:+ zero_pad 1 (pretty (- z)) else zero_pad 2 (pretty z).

(** [strings.TrimPrefix] and [strings.TrimSuffix], with [strings.HasSuffix]:
    slicing is [String.substring]. *)
Definition strings_TrimPrefix (s prefix : string) : string :=
  if String.prefix prefix s
  then String.substring (String.length prefix) (String.length s - String.length prefix) s
  else s.

Definition strings_HasSuffix (s suffix : string) : bool :=
  (String.length suffix <=? String.length s)%nat
  && String.eqb (String.substring (String.length s - String.length suffix)
                                  (String.length suffix) s) suffix.

Definition strings_TrimSuffix (s suffix : string) : string :=
  if strings_HasSuffix s suffix
  then String.substring 0 (String.length s - String.length suffix) s
  else s.

(** The three trimming steps [callGeminiOCR] applies to the model's text
    before parsing it as JSON. *)
Definition strip_fences (jsonStr : string) : string :=
  let jsonStr := strings_TrimPrefix jsonStr "```json" in
  let jsonStr := strings_TrimPrefix jsonStr "```" in
  strings_TrimSuffix jsonStr "```".

Section Recognizer.

(** [strings.TrimSpace]; the type [float64] with the conversion [int(v)];
    and the values of any other dynamic type with their ["%v"] rendering. *)
Variable TrimSpace : string -> string.
Variable float64 : Type.
Variable float64_to_int : float64 -> Z.
Variable other : Type.
Variable Sprintf_v : other -> string.

(** A decoded JSON element held in an [interface{}]. *)
Inductive any :=
| any_string (v : string)
| any_float64 (v : float64)
| any_int (v : Z)
| any_other (v : other).

Definition anyToString (val : any) : string :=
  match val with
  | any_string v => TrimSpace v
  | any_float64 v => Sprintf_02d (float64_to_int v)
  | any_int v => Sprintf_02d v
  | any_other v => Sprintf_v v
  end.

End Recognizer.

(** The value the mock lookup returns for every key it does not know. *)
Definition no_data : WinningNumbers := {| WinRed := ["00"]; WinBlue := ["00"] |}.

(** The two ASCII digits of a number below 100. *)
Definition two_digits (z : Z) : string :=
  String (digit_char (z / 10)) (String (digit_char (z mod 10)) "").

(** [s] begins, respectively ends, with the bytes of [p]. *)
Definition starts_with (p s : string) : Prop := exists rest, s = p +:+ rest.
Definition ends_with (p s : string) : Prop := exists front, s = front +:+ p.

(** The sum of [f (h + hits)] over the size-[k] subsequences of [l], where
    [hits] is the number of tokens of the subsequence that occur in [w];
    computed along the head/tail split without building the subsequences. *)
Fixpoint hits_fold (f : nat -> Z) (w l : list string) (k h : nat) : Z :=
  match k with
  | O => f h
  | S k' =>
      match l with
      | [] => 0
      | x :: l' =>
          hits_fold f w l' k' (if bool_decide (x ∈ w) then S h else h)
          + hits_fold f w l' k h
      end
  end.

(** A legal-size row whose pair payouts sum to 5 * 2^64: 24 reds, 18 of
    them winning tokens, and [p] winning plus [q] other blues. *)
Definition reds_24 : list string :=
  ["02"; "11"; "15"; "21"; "28"; "33"; "02"; "11"; "15"; "21"; "28"; "33";
   "02"; "11"; "15"; "21"; "28"; "33"; "01"; "03"; "04"; "05"; "06"; "08"].

Definition row_24 (p q : nat) : UserTicket :=
  {| Red := reds_24; Blue := replicate p "07" ++ replicate q "06";
     Multiplier := 1; Mode := "" |}.

(** The six winning reds of drawing 2025107 followed by [n] copies of the
    token 00, with the winning blue. *)
Definition row_six_and (n : nat) : UserTicket :=
  {| Red := ["02"; "11"; "15"; "21"; "28"; "33"] ++ replicate n "00";
     Blue := ["07"]; Multiplier := 1; Mode := "" |}.

(** The detail of a row moved [k] rows further down the ticket. *)
Definition shift_row (k : nat) (d : ResultDetail) : ResultDetail :=
  {| RowIndex := RowIndex d + Z.of_nat k; Level := Level d;
     Prize := Prize d; Status := Status d |}.

(** * Properties *)

(** ** Wrap-around arithmetic *)

Lemma wrap64_range z : in_int64 (wrap64 z).
Proof.
  unfold in_int64, wrap64, min_int64, max_int64.
  pose proof (Z.mod_pos_bound (z + 2 ^ 63) (2 ^ 64) ltac:(lia)). lia.
Qed.

Lemma wrap64_id z : in_int64 z -> wrap64 z = z.
Proof.
  unfold in_int64, wrap64, min_int64, max_int64. intros Hz.
  rewrite Z.mod_small by lia. lia.
Qed.

Lemma wrap64_add_l a b : wrap64 (wrap64 a + b) = wrap64 (a + b).
Proof.
  unfold wrap64. f_equal.
  replace ((a + 2 ^ 63) mod 2 ^ 64 - 2 ^ 63 + b + 2 ^ 63)
    with ((a + 2 ^ 63) mod 2 ^ 64 + b) by lia.
  rewrite Zplus_mod_idemp_l. f_equal. lia.
Qed.

Lemma wrap64_0 : wrap64 0 = 0.
Proof. reflexivity. Qed.

(** ** [intersect] *)

Lemma intersect_index_acc (b : list string) (m : gmap string bool) (x : string) :
  foldl (fun (m : gmap string bool) y => <[y := true]> m) m b !! x
  = if decide (x ∈ b) then Some true else m !! x.
Proof.
  revert m. induction b as [|y b IH]; intros m; simpl.
  - destruct (decide (x ∈ [])) as [H|_]; [by apply elem_of_nil in H|done].
  - rewrite IH. destruct (decide (x ∈ b)) as [Hb|Hb].
    + rewrite decide_True by (by right). done.
    + destruct (decide (x = y)) as [->|Hne].
      * rewrite decide_True by (by left). by rewrite lookup_insert_eq.
      * rewrite decide_False by (rewrite elem_of_cons; tauto).
        by rewrite lookup_insert_ne.
Qed.

Lemma intersect_lookup_index (b : list string) (x : string) :
  intersect_lookup (intersect_index b) x = bool_decide (x ∈ b).
Proof.
  unfold intersect_lookup, intersect_index. rewrite intersect_index_acc.
  rewrite lookup_empty. destruct (decide (x ∈ b)) as [H|H]; simpl.
  - by rewrite bool_decide_eq_true_2.
  - by rewrite bool_decide_eq_false_2.
Qed.

Lemma intersect_count_acc (m : gmap string bool) (a : list string) (c : nat) :
  foldl (fun (count : nat) x => if intersect_lookup m x then S count else count) c a
  = (c + length (filter (fun x => intersect_lookup m x = true) a))%nat.
Proof.
  revert c. induction a as [|x a IH]; intros c; simpl.
  - lia.
  - rewrite IH. rewrite filter_cons.
    destruct (intersect_lookup m x) eqn:E.
    + rewrite decide_True by done. simpl. lia.
    + rewrite decide_False by done. lia.
Qed.

Lemma intersect_filter (a b : list string) :
  intersect a b = length (filter (fun x => x ∈ b) a).
Proof.
  unfold intersect. rewrite intersect_count_acc. simpl. f_equal.
  induction a as [|x a IH]; [done|].
  rewrite !filter_cons, intersect_lookup_index.
  destruct (decide (x ∈ b)) as [H|H].
  - rewrite bool_decide_eq_true_2 by done. rewrite decide_True by done. by f_equal.
  - rewrite bool_decide_eq_false_2 by done. rewrite decide_False by done. done.
Qed.

Lemma intersect_le (a b : list string) : (intersect a b <= length a)%nat.
Proof. rewrite intersect_filter. apply length_filter. Qed.

Lemma intersect_all (a b : list string) :
  (forall x, x ∈ a -> x ∈ b) -> intersect a b = length a.
Proof.
  intros H. rewrite intersect_filter. f_equal.
  induction a as [|x a IH]; [done|].
  rewrite filter_cons, decide_True by (apply H; by left).
  f_equal. apply IH. intros y Hy. apply H. by right.
Qed.

Lemma intersect_none (a b : list string) :
  (forall x, x ∈ a -> x ∉ b) -> intersect a b = 0%nat.
Proof.
  intros H. rewrite intersect_filter.
  induction a as [|x a IH]; [done|].
  rewrite filter_cons, decide_False by (apply H; by left).
  apply IH. intros y Hy. apply H. by right.
Qed.

(** C6. [intersect a b] is the number of positions of [a] whose token
    occurs in [b]: every occurrence in [a] counts, [b] only matters as a
    set. Hence it is 0 when [a] and [b] share no token and [length a]
    when every token of [a] occurs in [b]. *)
Theorem intersect_counts_members (a b : list string) :
  intersect a b = length (filter (fun x => x ∈ b) a)
  /\ (forall b', (forall x, x ∈ b <-> x ∈ b') -> intersect a b' = intersect a b)
  /\ ((forall x, x ∈ a -> x ∉ b) -> intersect a b = 0%nat)
  /\ ((forall x, x ∈ a -> x ∈ b) -> intersect a b = length a).
Proof.
  split; [apply intersect_filter|]. split; [|split].
  - intros b' Hbb'. rewrite !intersect_filter. f_equal.
    apply list_filter_iff. intros x. symmetry. apply Hbb'.
  - apply intersect_none.
  - apply intersect_all.
Qed.

Lemma intersect_counts_members_witness :
  intersect ["01"; "02"; "02"; "09"] ["02"; "01"; "01"] = 3%nat
  /\ intersect ["01"; "02"] ["03"; "04"] = 0%nat
  /\ intersect ["01"; "02"; "01"] ["02"; "01"] = 3%nat.
Proof.
  split; [|split].
  - rewrite (proj1 (intersect_counts_members _ _)). reflexivity.
  - apply (proj1 (proj2 (proj2 (intersect_counts_members _ _)))).
    intros x. rewrite !elem_of_cons, !elem_of_nil. intros Ha Hb.
    intuition congruence.
  - apply (proj2 (proj2 (proj2 (intersect_counts_members ["01"; "02"; "01"] ["02"; "01"])))).
    intros x. rewrite !elem_of_cons, !elem_of_nil. tauto.
Defined.

(** ** [combinations] *)

Lemma binomial_0_r n : binomial n 0 = 1%nat.
Proof. by destruct n. Qed.

Lemma binomial_lt n k : (n < k)%nat -> binomial n k = 0%nat.
Proof.
  revert k. induction n as [|n IH]; intros [|k] Hk; simpl; try lia.
  rewrite !IH by lia. done.
Qed.

Lemma binomial_pos n k : (k <= n)%nat -> (0 < binomial n k)%nat.
Proof.
  revert k. induction n as [|n IH]; intros [|k] Hk; simpl; try lia.
  specialize (IH k ltac:(lia)). lia.
Qed.

(** [binomial] is the usual coefficient n! / (k! (n-k)!). *)
Lemma binomial_fact n k :
  (k <= n)%nat -> (binomial n k * (fact k * fact (n - k)) = fact n)%nat.
Proof.
  revert k. induction n as [|n IH]; intros [|k] Hk; try lia.
  - simpl. lia.
  - simpl binomial. rewrite Nat.mul_1_l. simpl fact at 1. rewrite Nat.sub_0_r. lia.
  - change (binomial (S n) (S k)) with (binomial n k + binomial n (S k))%nat.
    replace (S n - S k)%nat with (n - k)%nat by lia.
    destruct (decide (k = n)) as [->|Hne].
    + rewrite (binomial_lt n (S n)) by lia.
      pose proof (IH n ltac:(lia)) as IHn. rewrite Nat.sub_diag in *.
      change (fact (S n)) with (S n * fact n)%nat.
      simpl fact at 2 in IHn. simpl fact at 2. nia.
    + pose proof (IH k ltac:(lia)) as IH1.
      pose proof (IH (S k) ltac:(lia)) as IH2.
      replace (n - k)%nat with (S (n - S k)) in * by lia.
      change (fact (S n)) with (S n * fact n)%nat.
      change (fact (S k)) with (S k * fact k)%nat in *.
      change (fact (S (n - S k))) with (S (n - S k) * fact (n - S k))%nat in *.
      nia.
Qed.

Section Subseqs.
Context {A : Type}.
Implicit Types (l c : list A) (k : nat).

Lemma subseqs_0 l : subseqs l 0 = [[]].
Proof. by destruct l. Qed.

Lemma subseqs_length l k : length (subseqs l k) = binomial (length l) k.
Proof.
  revert k. induction l as [|x l IH]; intros [|k]; simpl; try done.
  by rewrite length_app, length_map, !IH.
Qed.

Lemma subseqs_elem_length l k c : c ∈ subseqs l k -> length c = k.
Proof.
  revert k c. induction l as [|x l IH]; intros [|k] c; simpl.
  - intros ->%list_elem_of_singleton. done.
  - intros []%elem_of_nil.
  - intros ->%list_elem_of_singleton. done.
  - rewrite elem_of_app, list_elem_of_fmap. intros [(c' & -> & Hc')|Hc].
    + simpl. f_equal. by apply IH.
    + by apply IH.
Qed.

Lemma subseqs_sublist l k c : c ∈ subseqs l k -> c `sublist_of` l.
Proof.
  revert k c. induction l as [|x l IH]; intros [|k] c; simpl.
  - intros ->%list_elem_of_singleton. done.
  - intros []%elem_of_nil.
  - intros ->%list_elem_of_singleton. apply sublist_nil_l.
  - rewrite elem_of_app, list_elem_of_fmap. intros [(c' & -> & Hc')|Hc].
    + apply sublist_skip. by eapply IH.
    + apply sublist_cons. by eapply IH.
Qed.

Lemma subseqs_complete l k c :
  c `sublist_of` l -> length c = k -> c ∈ subseqs l k.
Proof.
  intros Hsub. revert k. induction Hsub as [|x c l Hsub IH|x c l Hsub IH]; intros k Hk.
  - subst k. simpl. by apply list_elem_of_singleton.
  - subst k. simpl. rewrite elem_of_app, list_elem_of_fmap. left. eauto.
  - destruct k as [|k].
    + apply nil_length_inv in Hk. subst c. rewrite subseqs_0.
      by apply list_elem_of_singleton.
    + simpl. rewrite elem_of_app. right. by apply IH.
Qed.

Lemma subseqs_NoDup l k : NoDup l -> NoDup (subseqs l k).
Proof.
  intros Hl. revert k. induction Hl as [|x l Hx Hl IH]; intros [|k]; simpl.
  - apply NoDup_singleton.
  - apply NoDup_nil_2.
  - apply NoDup_singleton.
  - apply NoDup_app. split; [|split].
    + apply NoDup_fmap_2; [|apply IH]. by intros c1 c2 [= ->].
    + intros c (c' & -> & _)%list_elem_of_fmap Hc.
      apply subseqs_sublist in Hc. apply Hx.
      eapply elem_of_sublist; [|exact Hc]. by left.
    + apply IH.
Qed.

Lemma subseqs_fmap {B : Type} (f : A -> B) l k :
  subseqs (map f l) k = map (map f) (subseqs l k).
Proof.
  revert k. induction l as [|x l IH]; intros [|k]; simpl; try done.
  rewrite map_app, !IH, !map_map. done.
Qed.
End Subseqs.

Lemma select_seq (tokens : list string) :
  select tokens (seq 0 (length tokens)) = tokens.
Proof.
  unfold select. apply list_eq. intros i.
  rewrite list_lookup_fmap.
  destruct (decide (i < length tokens)%nat) as [Hi|Hi].
  - rewrite lookup_seq_lt by done. simpl.
    destruct (lookup_lt_is_Some_2 tokens i Hi) as [x Hx]. by rewrite Hx.
  - rewrite lookup_seq_ge by lia. simpl. symmetry. apply lookup_ge_None. lia.
Qed.

(** For an [int] size that is not negative the decrement never wraps, and
    [combinations] is the plain head/tail enumeration. *)
Lemma combinations_subseqs (tokens : list string) (r : Z) :
  0 <= r <= max_int64 -> combinations tokens r = subseqs tokens (Z.to_nat r).
Proof.
  revert r. induction tokens as [|x l IH]; intros r Hr.
  - simpl. destruct (Z.eqb_spec r 0) as [->|Hne]; [done|].
    destruct (Z.to_nat r) eqn:E; [lia|done].
  - simpl. destruct (Z.eqb_spec r 0) as [->|Hne]; [done|].
    assert (wrap64 (r - 1) = r - 1) as ->.
    { apply wrap64_id. unfold in_int64, min_int64, max_int64 in *. lia. }
    replace (Z.to_nat r) with (S (Z.to_nat (r - 1))) by lia.
    rewrite (IH (r - 1)) by lia. rewrite (IH r) by lia.
    replace (S (Z.to_nat (r - 1))) with (Z.to_nat r) by lia.
    destruct (Z.to_nat r) eqn:E; [lia|].
    replace (Z.to_nat (r - 1)) with n by lia. done.
Qed.

(** C5. For a token list of length [n] and an [int] size [r >= 0],
    [combinations tokens r] has exactly C(n, r) elements; each has size [r]
    and is a subsequence of [tokens] (relative order kept); the elements
    are the selections at pairwise distinct increasing index lists, and
    every such index list of size [r] is among them. For [r = 0] the result
    is the single empty combination, for [r > n] it is empty. *)
Theorem combinations_enumerates (tokens : list string) (r : Z) :
  0 <= r <= max_int64 ->
  let n := length tokens in
  let k := Z.to_nat r in
  length (combinations tokens r) = binomial n k
  /\ Forall (fun c => length c = k /\ c `sublist_of` tokens) (combinations tokens r)
  /\ (exists idxs : list (list nat),
        combinations tokens r = map (select tokens) idxs
        /\ NoDup idxs
        /\ Forall (fun ix => length ix = k /\ ix `sublist_of` seq 0 n) idxs
        /\ (forall ix, ix `sublist_of` seq 0 n -> length ix = k -> ix ∈ idxs))
  /\ (r = 0 -> combinations tokens r = [[]])
  /\ (Z.of_nat n < r -> combinations tokens r = []).
Proof.
  intros Hr n k. rewrite combinations_subseqs by done. fold k.
  split; [apply subseqs_length|]. split; [|split; [|split]].
  - apply Forall_forall. intros c Hc. split.
    + by eapply subseqs_elem_length.
    + by eapply subseqs_sublist.
  - exists (subseqs (seq 0 n) k). split; [|split; [|split]].
    + rewrite <- (select_seq tokens) at 1. unfold select at 1.
      rewrite subseqs_fmap. done.
    + apply subseqs_NoDup, NoDup_seq.
    + apply Forall_forall. intros ix Hix. split.
      * by eapply subseqs_elem_length.
      * by eapply subseqs_sublist.
    + intros ix Hsub Hlen. by apply subseqs_complete.
  - intros ->. subst k. apply subseqs_0.
  - intros Hlt. apply nil_length_inv. rewrite subseqs_length.
    apply binomial_lt. subst n k. lia.
Qed.

Lemma combinations_enumerates_witness :
  length (combinations ["01"; "02"; "03"; "04"; "05"; "06"; "07"] 6) = 7%nat
  /\ combinations ["01"; "02"] 0 = [[]]
  /\ combinations ["01"; "02"] 3 = [].
Proof.
  assert (H6 : 0 <= 6 <= max_int64) by (unfold max_int64; lia).
  assert (H0 : 0 <= 0 <= max_int64) by (unfold max_int64; lia).
  assert (H3 : 0 <= 3 <= max_int64) by (unfold max_int64; lia).
  split; [|split].
  - rewrite (proj1 (combinations_enumerates ["01"; "02"; "03"; "04"; "05"; "06"; "07"] 6 H6)).
    reflexivity.
  - apply (combinations_enumerates ["01"; "02"] 0 H0). reflexivity.
  - apply (combinations_enumerates ["01"; "02"] 3 H3). simpl. lia.
Defined.

(** ** Tier chains against the tier tables *)

Lemma DoubleColor_tier_table (redHits blueHits : nat) :
  DoubleColor_tier redHits blueHits
  = default (0, 0) (DoubleColor_tier_spec redHits blueHits).
Proof.
  destruct redHits as [|[|[|[|[|[|[|r]]]]]]];
    destruct blueHits as [|[|b]]; reflexivity.
Qed.

Lemma DoubleColor_tier_spec_range (redHits blueHits : nat) (level money : Z) :
  DoubleColor_tier_spec redHits blueHits = Some (level, money) ->
  1 <= level <= 6 /\ 5 <= money <= 5000000.
Proof.
  destruct redHits as [|[|[|[|[|[|[|r]]]]]]];
    destruct blueHits as [|[|b]]; unfold DoubleColor_tier_spec, table_lookup; simpl;
    intros [= <- <-]; lia.
Qed.

Lemma Lotto_tier_table (redHits blueHits : nat) :
  Lotto_tier redHits blueHits
  = default (0, 0) (table_lookup Lotto_table redHits blueHits).
Proof.
  destruct redHits as [|[|[|[|[|[|r]]]]]];
    destruct blueHits as [|[|[|b]]]; reflexivity.
Qed.

Lemma Lotto_tier_range (redHits blueHits : nat) :
  let '(level, money) := Lotto_tier redHits blueHits in
  (level = 0 /\ money = 0) \/ (1 <= level <= 9 /\ 5 <= money <= 10000000).
Proof.
  destruct redHits as [|[|[|[|[|[|r]]]]]];
    destruct blueHits as [|[|[|b]]]; unfold Lotto_tier; simpl; lia.
Qed.

Lemma DoubleColor_blueHits_eq (win : WinningNumbers) (b : string) :
  DoubleColor_blueHits win b = DoubleColor_blueHits_spec win b.
Proof.
  unfold DoubleColor_blueHits, DoubleColor_blueHits_spec.
  destruct (WinBlue win) as [|b0 bs]; simpl; [done|].
  destruct (decide (b = b0)) as [->|Hne].
  - by rewrite !bool_decide_eq_true_2.
  - rewrite !bool_decide_eq_false_2; [done|congruence|done].
Qed.

(** ** The loops of [DoubleColorVerifier.Verify] *)

Lemma sum_Z_app l1 l2 : sum_Z (l1 ++ l2) = sum_Z l1 + sum_Z l2.
Proof. induction l1 as [|x l1 IH]; simpl; lia. Qed.

Lemma DoubleColor_inner_acc win redComb st b :
  DoubleColor_inner win redComb st b
  = DoubleColor_acc st (default (0, 0) (DoubleColor_pair_spec win (redComb, b))).
Proof.
  unfold DoubleColor_inner, DoubleColor_acc, DoubleColor_pair_spec. simpl.
  rewrite DoubleColor_tier_table, DoubleColor_blueHits_eq. done.
Qed.

(** The nested loops visit [DoubleColor_pairs] in order. *)
Lemma DoubleColor_loops_pairs t win st (redCombs : list (list string)) :
  foldl (DoubleColor_outer t win) st redCombs
  = foldl DoubleColor_acc st
      (map (fun p => default (0, 0) (DoubleColor_pair_spec win p))
           (redComb ← redCombs; b ← Blue t; [(redComb, b)])).
Proof.
  revert st. induction redCombs as [|c cs IH]; intros st; [done|].
  simpl. rewrite map_app, foldl_app, <- IH. f_equal.
  unfold DoubleColor_outer. generalize (Blue t). intros bs. revert st.
  induction bs as [|b bs IHb]; intros st; [done|].
  simpl. rewrite <- IHb. f_equal. apply DoubleColor_inner_acc.
Qed.

(** Pairs without a tier leave the state unchanged. *)
Lemma DoubleColor_acc_hits win st (ps : list (list string * string)) :
  foldl DoubleColor_acc st (map (fun p => default (0, 0) (DoubleColor_pair_spec win p)) ps)
  = foldl DoubleColor_acc st (omap (DoubleColor_pair_spec win) ps).
Proof.
  revert st. induction ps as [|p ps IH]; intros st; [done|].
  simpl. destruct (DoubleColor_pair_spec win p) as [[l m]|] eqn:E; simpl.
  - apply IH.
  - rewrite <- IH. by destruct st.
Qed.

Lemma DoubleColor_hits_ok t win : Forall hit_ok (DoubleColor_hits t win).
Proof.
  apply Forall_forall. intros [l m] H.
  apply list_elem_of_omap in H as (p & _ & Hp).
  by eapply DoubleColor_tier_spec_range.
Qed.

Lemma DoubleColor_acc_total (hits : list (Z * Z)) (best total : Z) :
  Forall hit_ok hits -> in_int64 total ->
  (foldl DoubleColor_acc (best, total) hits).2 = wrap64 (total + sum_Z (map snd hits)).
Proof.
  intros Hok. revert best total. induction Hok as [|[l m] hits [_ Hm] Hok IH];
    intros best total Ht; simpl in *.
  - rewrite Z.add_0_r. symmetry. by apply wrap64_id.
  - destruct (Z.ltb_spec 0 m); [|lia].
    rewrite IH by apply wrap64_range. rewrite wrap64_add_l. f_equal. lia.
Qed.

(** The running best level is the least level seen so far, where the
    initial 0 stands for "none yet". *)
Lemma DoubleColor_acc_best (hits : list (Z * Z)) (best total : Z) :
  Forall hit_ok hits -> 0 <= best ->
  let r := (foldl DoubleColor_acc (best, total) hits).1 in
  let cands := (if decide (best = 0) then [] else [best]) ++ map fst hits in
  (cands = [] -> r = 0)
  /\ (cands <> [] -> r ∈ cands /\ forall x, x ∈ cands -> r <= x).
Proof.
  intros Hok. revert best total. induction Hok as [|[l m] hits [Hl Hm] Hok IH];
    intros best total Hb; simpl in *.
  - destruct (decide (best = 0)) as [->|Hne]; simpl.
    + split; [done|by intros []].
    + split; [done|]. intros _. split; [by left|].
      intros x ->%list_elem_of_singleton. lia.
  - destruct (Z.ltb_spec 0 m); [|lia].
    set (best' := if (best =? 0) || (l <? best) then l else best).
    assert (Hb' : 1 <= best' /\ best' <= l /\ (best <> 0 -> best' <= best)
                  /\ (best' = l \/ (best <> 0 /\ best' = best))).
    { subst best'. destruct (Z.eqb_spec best 0); simpl; [lia|].
      destruct (Z.ltb_spec l best); lia. }
    destruct (IH best' (wrap64 (total + m)) ltac:(lia)) as [_ IH2].
    rewrite decide_False in IH2 by lia.
    destruct (IH2 ltac:(done)) as [Hin Hmin]. clear IH IH2.
    split.
    { destruct (decide (best = 0)); simpl; intros; discriminate. }
    intros _. split.
    + apply elem_of_cons in Hin as [Hin|Hin].
      * rewrite Hin. destruct Hb' as (_ & _ & _ & [->| [Hne ->]]).
        -- rewrite elem_of_app. right. by left.
        -- rewrite decide_False by done. by left.
      * rewrite elem_of_app. right. by right.
    + intros x Hx. pose proof (Hmin best' ltac:(by left)) as Hrb.
      rewrite elem_of_app in Hx. destruct Hx as [Hx|Hx].
      * destruct (decide (best = 0)); [by apply elem_of_nil in Hx|].
        apply list_elem_of_singleton in Hx. subst x. lia.
      * apply elem_of_cons in Hx as [->|Hx]; [lia|].
        apply Hmin. by right.
Qed.

Lemma DoubleColorVerifier_Verify_loops t win :
  DoubleColorVerifier_Verify t win
  = let st := foldl DoubleColor_acc (0, 0) (DoubleColor_hits t win) in
    (st.1, st.2, if 0 <? st.2 then status_win st.2 else status_no_win).
Proof.
  unfold DoubleColorVerifier_Verify.
  rewrite DoubleColor_loops_pairs, DoubleColor_acc_hits.
  fold (DoubleColor_pairs t). fold (DoubleColor_hits t win).
  by destruct (foldl DoubleColor_acc (0, 0) (DoubleColor_hits t win)).
Qed.

Lemma DoubleColor_total_wrap t win :
  (DoubleColorVerifier_Verify t win).1.2 = wrap64 (DoubleColor_exact_total t win).
Proof.
  rewrite DoubleColorVerifier_Verify_loops. simpl.
  rewrite DoubleColor_acc_total.
  - done.
  - apply DoubleColor_hits_ok.
  - unfold in_int64, min_int64, max_int64. lia.
Qed.

Lemma DoubleColor_rank_min t win :
  let rank := (DoubleColorVerifier_Verify t win).1.1 in
  let ranks := map fst (DoubleColor_hits t win) in
  (ranks = [] -> rank = 0)
  /\ (ranks <> [] -> rank ∈ ranks /\ forall x, x ∈ ranks -> rank <= x).
Proof.
  rewrite DoubleColorVerifier_Verify_loops. simpl.
  pose proof (DoubleColor_acc_best (DoubleColor_hits t win) 0 0
                (DoubleColor_hits_ok t win) ltac:(lia)) as H.
  simpl in H. exact H.
Qed.

Lemma DoubleColorVerifier_Verify_status t win :
  DoubleColorVerifier_Verify t win
  = let rank := (DoubleColorVerifier_Verify t win).1.1 in
    let total := (DoubleColorVerifier_Verify t win).1.2 in
    (rank, total, if 0 <? total then status_win total else status_no_win).
Proof. by rewrite DoubleColorVerifier_Verify_loops. Qed.

Lemma sum_Z_nonneg {A : Type} (g : A -> Z) (l : list A) :
  (forall x, 0 <= g x) -> 0 <= sum_Z (map g l).
Proof.
  intros Hg. induction l as [|x l IH]; simpl; [lia|]. specialize (Hg x). lia.
Qed.

Lemma sum_Z_hits_pos (hits : list (Z * Z)) :
  Forall hit_ok hits -> hits <> [] -> 0 < sum_Z (map snd hits).
Proof.
  intros Hok Hne. destruct Hok as [|[l m] hits [_ Hm] Hok]; [done|]. simpl in *.
  assert (0 <= sum_Z (map snd hits)); [|lia].
  clear Hne. induction Hok as [|[l' m'] hits' [_ Hm'] _ IH]; simpl in *; lia.
Qed.

Lemma sum_Z_hits_bound (hits : list (Z * Z)) :
  Forall hit_ok hits -> sum_Z (map snd hits) <= 5000000 * Z.of_nat (length hits).
Proof.
  induction 1 as [|[l m] hits [_ Hm] _ IH]; [simpl; lia|].
  simpl in Hm. simpl sum_Z. simpl length. lia.
Qed.

Lemma DoubleColor_hits_length t win :
  (length (DoubleColor_hits t win) <= length (DoubleColor_pairs t))%nat.
Proof.
  unfold DoubleColor_hits. induction (DoubleColor_pairs t) as [|p ps IH]; [done|].
  change (omap (DoubleColor_pair_spec win) (p :: ps))
    with (match DoubleColor_pair_spec win p with
          | Some y => y :: omap (DoubleColor_pair_spec win) ps
          | None => omap (DoubleColor_pair_spec win) ps
          end).
  destruct (DoubleColor_pair_spec win p); simpl length; lia.
Qed.

Lemma DoubleColor_exact_total_nonneg t win : 0 <= DoubleColor_exact_total t win.
Proof.
  unfold DoubleColor_exact_total.
  destruct (DoubleColor_hits t win) as [|h hs] eqn:E; [simpl; lia|].
  rewrite <- E. apply Z.lt_le_incl, sum_Z_hits_pos; [apply DoubleColor_hits_ok|].
  by rewrite E.
Qed.

Lemma DoubleColor_money_nonneg win c b : 0 <= DoubleColor_money win c b.
Proof.
  unfold DoubleColor_money.
  destruct (DoubleColor_pair_spec win (c, b)) as [[l m]|] eqn:E; simpl; [|lia].
  apply DoubleColor_tier_spec_range in E. lia.
Qed.

Lemma sum_Z_omap_default {A : Type} (f : A -> option (Z * Z)) (ps : list A) :
  sum_Z (map snd (omap f ps)) = sum_Z (map (fun p => (default (0, 0) (f p)).2) ps).
Proof.
  induction ps as [|p ps IH]; [done|].
  change (omap f (p :: ps))
    with (match f p with Some y => y :: omap f ps | None => omap f ps end).
  change (map (fun p => (default (0, 0) (f p)).2) (p :: ps))
    with ((default (0, 0) (f p)).2 :: map (fun p => (default (0, 0) (f p)).2) ps).
  destruct (f p) as [[l m]|]; simpl sum_Z; simpl default; simpl snd;
    rewrite <- IH; simpl; lia.
Qed.

Lemma DoubleColor_money_row win c (bs : list string) :
  sum_Z (map (fun p => (default (0, 0) (DoubleColor_pair_spec win p)).2)
             (b ← bs; [(c, b)]))
  = sum_Z (map (DoubleColor_money win c) bs).
Proof.
  induction bs as [|b bs IHb]; [done|].
  rewrite bind_cons. simpl. rewrite IHb. done.
Qed.

(** The exact total, grouped the way the loops nest. *)
Lemma DoubleColor_exact_total_nested t win :
  DoubleColor_exact_total t win
  = sum_Z (map (fun c => sum_Z (map (DoubleColor_money win c) (Blue t)))
               (combinations (Red t) 6)).
Proof.
  unfold DoubleColor_exact_total, DoubleColor_hits, DoubleColor_pairs.
  rewrite sum_Z_omap_default.
  induction (combinations (Red t) 6) as [|c cs IH]; [done|].
  rewrite bind_cons, map_app, sum_Z_app, IH. simpl. f_equal.
  apply DoubleColor_money_row.
Qed.

Lemma sum_Z_replicate {A : Type} (f : A -> Z) (n : nat) (b : A) :
  sum_Z (map f (replicate n b)) = Z.of_nat n * f b.
Proof. induction n as [|n IH]; simpl sum_Z; [lia|]. rewrite IH. lia. Qed.

Lemma sum_Z_scale {A : Type} (g : A -> Z) (k : Z) (l : list A) :
  sum_Z (map (fun c => k * g c) l) = k * sum_Z (map g l).
Proof. induction l as [|x l IH]; simpl; lia. Qed.

(** A row whose blue selection is [n] copies of one token. *)
Lemma DoubleColor_exact_total_replicate red n b mult mode win :
  DoubleColor_exact_total
    {| Red := red; Blue := replicate n b; Multiplier := mult; Mode := mode |} win
  = Z.of_nat n * sum_Z (map (fun c => DoubleColor_money win c b) (combinations red 6)).
Proof.
  rewrite DoubleColor_exact_total_nested. simpl Red. simpl Blue.
  rewrite <- sum_Z_scale. f_equal. apply map_ext. intros c.
  apply sum_Z_replicate.
Qed.

(** ** Scenarios of the specification *)

Example scenario_A :
  DoubleColorVerifier_Verify
    {| Red := ["02"; "11"; "15"; "21"; "28"; "33"]; Blue := ["07"];
       Multiplier := 1; Mode := "" |} draw_2025107
  = (1, 5000000, "中奖: 5000000元").
Proof. vm_compute. reflexivity. Qed.

Example scenario_B :
  DoubleColorVerifier_Verify
    {| Red := ["02"; "11"; "15"; "21"; "28"; "33"]; Blue := ["06"];
       Multiplier := 1; Mode := "" |} draw_2025107
  = (2, 100000, "中奖: 100000元").
Proof. vm_compute. reflexivity. Qed.

Example scenario_C :
  LottoVerifier_Verify
    {| Red := ["01"; "02"; "03"; "04"; "05"]; Blue := ["01"; "02"];
       Multiplier := 1; Mode := "" |}
    {| WinRed := ["01"; "02"; "03"; "04"; "05"]; WinBlue := ["01"; "02"] |}
  = (1, 10000000, "中奖: 10000000元").
Proof. vm_compute. reflexivity. Qed.

Example scenario_F :
  let t := {| Red := ["02"; "11"; "15"; "21"; "28"; "33"; "01"]; Blue := ["06"; "07"];
              Multiplier := 1; Mode := "" |} in
  length (DoubleColor_pairs t) = 14%nat
  /\ DoubleColorVerifier_Verify t draw_2025107 = (1, 5119200, "中奖: 5119200元")
  /\ DoubleColor_exact_total t draw_2025107 = 5119200.
Proof. vm_compute. done. Qed.

(** ** C1, C9, C10: what [DoubleColorVerifier.Verify] returns *)

(** C1 (as amended). [DoubleColorVerifier.Verify] visits every pair of a
    6-token red combination and a selected blue token, resolves it against
    the tier table with [redHits] the intersection with the winning reds
    and [blueHits] 1 exactly when the blue token is the first winning blue;
    the returned total is the sum of the payouts of the pairs that hit a
    tier, reduced to [int64] by wrap-around, hence the sum itself whenever
    that is at most [2^63 - 1], which holds for every row with at most
    1,844,674,407,370 pairs; the returned rank is the least rank among the
    hitting pairs, and 0 when there is none. *)
Theorem DoubleColorVerifier_Verify_pairs (t : UserTicket) (win : WinningNumbers) :
  let rank := (DoubleColorVerifier_Verify t win).1.1 in
  let total := (DoubleColorVerifier_Verify t win).1.2 in
  let hits := omap (DoubleColor_pair_spec win)
                   (redComb ← combinations (Red t) 6; b ← Blue t; [(redComb, b)]) in
  total = wrap64 (sum_Z (map snd hits))
  /\ (sum_Z (map snd hits) <= max_int64 -> total = sum_Z (map snd hits))
  /\ (Z.of_nat (length (DoubleColor_pairs t)) <= 1844674407370 ->
      total = sum_Z (map snd hits))
  /\ (hits = [] -> rank = 0)
  /\ (hits <> [] ->
      rank ∈ map fst hits /\ forall x, x ∈ map fst hits -> rank <= x).
Proof.
  intros rank total hits. subst rank total hits.
  fold (DoubleColor_pairs t). fold (DoubleColor_hits t win).
  pose proof (DoubleColor_total_wrap t win) as Htot.
  pose proof (DoubleColor_rank_min t win) as [Hr0 Hr1].
  pose proof (DoubleColor_exact_total_nonneg t win) as Hnn.
  unfold DoubleColor_exact_total in *.
  split; [exact Htot|]. split; [|split; [|split]].
  - intros Hle. rewrite Htot. apply wrap64_id.
    unfold in_int64, min_int64. lia.
  - intros Hle. rewrite Htot. apply wrap64_id.
    pose proof (sum_Z_hits_bound _ (DoubleColor_hits_ok t win)) as Hb.
    pose proof (DoubleColor_hits_length t win) as Hl.
    unfold in_int64, min_int64, max_int64. lia.
  - intros H. apply Hr0. by rewrite H.
  - intros Hne. apply Hr1. by destruct (DoubleColor_hits t win).
Qed.

Lemma DoubleColorVerifier_Verify_pairs_witness :
  let t := {| Red := ["02"; "11"; "15"; "21"; "28"; "33"; "01"]; Blue := ["06"; "07"];
              Multiplier := 1; Mode := "" |} in
  (DoubleColorVerifier_Verify t draw_2025107).1.2 = 5119200
  /\ (DoubleColorVerifier_Verify t draw_2025107).1.1 = 1.
Proof.
  intros t.
  pose proof (DoubleColorVerifier_Verify_pairs t draw_2025107) as (_ & Hsum & _ & _ & Hmin).
  split.
  - rewrite Hsum; [reflexivity|]. vm_compute. discriminate.
  - destruct Hmin as [_ Hle]; [vm_compute; discriminate|].
    reflexivity.
Defined.

(** C1, counterexample. A row with the six winning reds and
    2,000,000,000,000 copies of the winning blue has that many first-prize
    pairs: the payouts sum to 10^19, the returned total is 10^19 - 2^64. *)
Lemma DoubleColor_total_is_not_the_sum :
  let t := {| Red := ["02"; "11"; "15"; "21"; "28"; "33"];
              Blue := replicate (Z.to_nat 2000000000000) "07";
              Multiplier := 1; Mode := "" |} in
  sum_Z (map snd (DoubleColor_hits t draw_2025107)) = 10000000000000000000
  /\ (DoubleColorVerifier_Verify t draw_2025107).1.2 = -8446744073709551616.
Proof.
  intros t. subst t.
  pose proof (Z2Nat.id 2000000000000 ltac:(lia)) as Hn.
  revert Hn. generalize (Z.to_nat 2000000000000). intros n Hn.
  rewrite DoubleColor_total_wrap. unfold DoubleColor_exact_total at 1.
  fold (DoubleColor_exact_total
          {| Red := ["02"; "11"; "15"; "21"; "28"; "33"]; Blue := replicate n "07";
             Multiplier := 1; Mode := "" |} draw_2025107).
  rewrite DoubleColor_exact_total_replicate, Hn.
  assert (sum_Z (map (fun c => DoubleColor_money draw_2025107 c "07")
                     (combinations ["02"; "11"; "15"; "21"; "28"; "33"] 6)) = 5000000)
    as -> by (vm_compute; reflexivity).
  split; reflexivity.
Qed.

(** Appending a token to the reds only adds combinations. *)
Lemma subseqs_snoc_sum {A : Type} (g : list A -> Z) (l : list A) (w : A) (k : nat) :
  (forall c, 0 <= g c) ->
  sum_Z (map g (subseqs l k)) <= sum_Z (map g (subseqs (l ++ [w]) k)).
Proof.
  revert g k. induction l as [|x l IH]; intros g k Hg.
  - destruct k as [|k]; [simpl; lia|].
    change (subseqs [] (S k)) with (@nil (list A)). simpl sum_Z at 1.
    by apply sum_Z_nonneg.
  - destruct k as [|k]; [simpl; lia|].
    change (subseqs (x :: l) (S k))
      with (map (cons x) (subseqs l k) ++ subseqs l (S k)).
    change (subseqs ((x :: l) ++ [w]) (S k))
      with (map (cons x) (subseqs (l ++ [w]) k) ++ subseqs (l ++ [w]) (S k)).
    rewrite !map_app, !sum_Z_app, !map_map.
    pose proof (IH (fun c => g (x :: c)) k ltac:(intros; apply Hg)).
    pose proof (IH g (S k) Hg). lia.
Qed.

Lemma int6_range : 0 <= 6 <= max_int64.
Proof. unfold max_int64. lia. Qed.

Lemma DoubleColor_exact_total_snoc t win w :
  DoubleColor_exact_total t win
  <= DoubleColor_exact_total (with_red t (Red t ++ [w])) win.
Proof.
  rewrite !DoubleColor_exact_total_nested. simpl.
  rewrite !combinations_subseqs by apply int6_range.
  apply (subseqs_snoc_sum
           (fun c => sum_Z (map (DoubleColor_money win c) (Blue t)))).
  intros c. apply sum_Z_nonneg. intros b. apply DoubleColor_money_nonneg.
Qed.

(** C9 (as amended). With the blue selection held fixed, appending to a
    row's reds a winning red token the row does not have never decreases
    the total returned by [DoubleColorVerifier.Verify], provided the exact
    sum of pair payouts of the extended row is at most [2^63 - 1], that is,
    the [int64] accumulator does not overflow. *)
Theorem DoubleColor_monotone_in_red (t : UserTicket) (win : WinningNumbers) (w : string) :
  w ∈ WinRed win ->
  w ∉ Red t ->
  DoubleColor_exact_total (with_red t (Red t ++ [w])) win <= max_int64 ->
  (DoubleColorVerifier_Verify t win).1.2
  <= (DoubleColorVerifier_Verify (with_red t (Red t ++ [w])) win).1.2.
Proof.
  intros _ _ Hmax.
  pose proof (DoubleColor_exact_total_snoc t win w) as Hle.
  pose proof (DoubleColor_exact_total_nonneg t win) as Hnn.
  rewrite !DoubleColor_total_wrap.
  rewrite !wrap64_id; [done| |]; unfold in_int64, min_int64; lia.
Qed.

Lemma DoubleColor_monotone_in_red_witness :
  (DoubleColorVerifier_Verify
     {| Red := ["02"; "11"; "15"; "21"; "28"]; Blue := ["07"; "06"];
        Multiplier := 1; Mode := "" |} draw_2025107).1.2
  <= (DoubleColorVerifier_Verify
        {| Red := ["02"; "11"; "15"; "21"; "28"; "33"]; Blue := ["07"; "06"];
           Multiplier := 1; Mode := "" |} draw_2025107).1.2.
Proof.
  apply (DoubleColor_monotone_in_red
           {| Red := ["02"; "11"; "15"; "21"; "28"]; Blue := ["07"; "06"];
              Multiplier := 1; Mode := "" |} draw_2025107 "33").
  - unfold draw_2025107. simpl. rewrite !elem_of_cons. tauto.
  - simpl. rewrite !elem_of_cons, elem_of_nil. intros H.
    repeat (destruct H as [H|H]; [discriminate H|]). exact H.
  - vm_compute. discriminate.
Defined.

(** C9, counterexample. The row holds five of the six winning reds and
    2,000,000,000,000 copies of the winning blue: it has no combination and
    returns 0. With the sixth winning red appended every pair is a first
    prize, the sum 10^19 wraps, and the returned total is negative. *)
Lemma DoubleColor_not_monotone_in_red :
  let t := {| Red := ["02"; "11"; "15"; "21"; "28"];
              Blue := replicate (Z.to_nat 2000000000000) "07";
              Multiplier := 1; Mode := "" |} in
  "33" ∈ WinRed draw_2025107
  /\ ("33" ∉ Red t)
  /\ (DoubleColorVerifier_Verify t draw_2025107).1.2 = 0
  /\ (DoubleColorVerifier_Verify (with_red t (Red t ++ ["33"])) draw_2025107).1.2
     = -8446744073709551616.
Proof.
  intros t. subst t.
  pose proof (Z2Nat.id 2000000000000 ltac:(lia)) as Hn.
  revert Hn. generalize (Z.to_nat 2000000000000). intros n Hn.
  split; [|split; [|split]].
  - unfold draw_2025107. simpl. rewrite !elem_of_cons. tauto.
  - simpl. rewrite !elem_of_cons, elem_of_nil. intros H.
    repeat (destruct H as [H|H]; [discriminate H|]). exact H.
  - rewrite DoubleColor_total_wrap, DoubleColor_exact_total_replicate.
    assert (sum_Z (map (fun c => DoubleColor_money draw_2025107 c "07")
                       (combinations ["02"; "11"; "15"; "21"; "28"] 6)) = 0)
      as -> by (vm_compute; reflexivity).
    rewrite Z.mul_0_r. reflexivity.
  - unfold with_red. simpl Red. simpl Blue. simpl app.
    rewrite DoubleColor_total_wrap, DoubleColor_exact_total_replicate, Hn.
    assert (sum_Z (map (fun c => DoubleColor_money draw_2025107 c "07")
                       (combinations ["02"; "11"; "15"; "21"; "28"; "33"] 6)) = 5000000)
      as -> by (vm_compute; reflexivity).
    reflexivity.
Qed.

Lemma DoubleColor_rank_range t win :
  let rank := (DoubleColorVerifier_Verify t win).1.1 in
  (DoubleColor_hits t win = [] -> rank = 0)
  /\ (DoubleColor_hits t win <> [] -> 1 <= rank <= 6).
Proof.
  intros rank. subst rank.
  pose proof (DoubleColor_rank_min t win) as [Hr0 Hr1]. cbv zeta in Hr0, Hr1.
  split.
  - intros H. apply Hr0. by rewrite H.
  - intros Hne.
    destruct Hr1 as [Hin _]; [by destruct (DoubleColor_hits t win)|].
    apply list_elem_of_fmap in Hin as ([l m] & Heq & Hin). simpl in Heq.
    pose proof (DoubleColor_hits_ok t win) as Hok.
    rewrite Forall_forall in Hok. specialize (Hok _ Hin).
    destruct Hok as [Hl _]. simpl in Hl. lia.
Qed.

Lemma DoubleColor_exact_total_0 t win :
  DoubleColor_exact_total t win = 0 <-> DoubleColor_hits t win = [].
Proof.
  split.
  - intros H0. destruct (DoubleColor_hits t win) as [|h hs] eqn:E; [done|].
    pose proof (sum_Z_hits_pos (DoubleColor_hits t win)
                  (DoubleColor_hits_ok t win) ltac:(by rewrite E)) as Hpos.
    unfold DoubleColor_exact_total in H0. lia.
  - intros H. unfold DoubleColor_exact_total. by rewrite H.
Qed.

Lemma LottoVerifier_Verify_tier t win :
  LottoVerifier_Verify t win
  = let lm := Lotto_tier (intersect (Red t) (WinRed win))
                         (intersect (Blue t) (WinBlue win)) in
    (lm.1, lm.2, if 0 <? lm.2 then status_win lm.2 else status_no_win).
Proof.
  unfold LottoVerifier_Verify.
  by destruct (Lotto_tier (intersect (Red t) (WinRed win))
                          (intersect (Blue t) (WinBlue win))).
Qed.

(** C10 (as amended). For [LottoVerifier] and [Permutation5Verifier] on
    every input, and for [DoubleColorVerifier] whenever the exact sum of
    pair payouts is at most [2^63 - 1]: the returned rank is nonzero exactly
    when the returned payout is nonzero, a zero payout comes with rank 0 and
    a positive payout with a rank between 1 and 9. For
    [DoubleColorVerifier] on every input, rank 0 comes with payout 0 and a
    nonzero payout with a rank between 1 and 9. *)
Theorem verifier_rank_payout (v : Verifier) (t : UserTicket) (win : WinningNumbers) :
  let rank := (Verify v t win).1.1 in
  let payout := (Verify v t win).1.2 in
  (rank = 0 -> payout = 0)
  /\ (payout <> 0 -> 1 <= rank <= 9)
  /\ ((v = DoubleColorVerifier -> DoubleColor_exact_total t win <= max_int64) ->
      (rank <> 0 <-> payout <> 0)
      /\ (payout = 0 -> rank = 0)
      /\ (0 < payout -> 1 <= rank <= 9)
      /\ 0 <= payout).
Proof.
  intros rank payout. subst rank payout. destruct v; simpl Verify.
  - pose proof (DoubleColor_total_wrap t win) as Htot.
    pose proof (DoubleColor_rank_range t win) as [Hr0 Hr1]. cbv zeta in Hr0, Hr1.
    pose proof (DoubleColor_exact_total_0 t win) as H0.
    pose proof (DoubleColor_exact_total_nonneg t win) as Hnn.
    destruct (decide (DoubleColor_hits t win = [])) as [He|Hne].
    + rewrite Htot, (proj2 H0 He), wrap64_0. specialize (Hr0 He).
      repeat split; intros; lia.
    + specialize (Hr1 Hne). split; [lia|]. split; [lia|].
      intros Hmax. specialize (Hmax eq_refl).
      rewrite Htot, wrap64_id by (unfold in_int64, min_int64; lia).
      assert (DoubleColor_exact_total t win <> 0) by tauto.
      repeat split; intros; lia.
  - rewrite LottoVerifier_Verify_tier. simpl.
    pose proof (Lotto_tier_range (intersect (Red t) (WinRed win))
                                 (intersect (Blue t) (WinBlue win))) as H.
    destruct (Lotto_tier _ _) as [l m]. simpl.
    repeat split; intros; lia.
  - unfold Permutation5Verifier_Verify.
    destruct (Permutation5_match t win); simpl; repeat split; intros; lia.
Qed.

Lemma verifier_rank_payout_witness :
  let t := {| Red := ["02"; "11"; "15"; "21"; "28"; "33"; "01"]; Blue := ["06"; "07"];
              Multiplier := 1; Mode := "" |} in
  (Verify DoubleColorVerifier t draw_2025107).1.1 <> 0
  <-> (Verify DoubleColorVerifier t draw_2025107).1.2 <> 0.
Proof.
  intros t.
  apply (verifier_rank_payout DoubleColorVerifier t draw_2025107).
  intros _. vm_compute. discriminate.
Defined.

Lemma DoubleColor_rank_le_hit t win (l m : Z) :
  (l, m) ∈ DoubleColor_hits t win ->
  1 <= (DoubleColorVerifier_Verify t win).1.1 <= l.
Proof.
  intros Hin.
  assert (Hne : DoubleColor_hits t win <> []).
  { intros He. rewrite He in Hin. by apply elem_of_nil in Hin. }
  pose proof (DoubleColor_rank_range t win) as [_ Hrange]. cbv zeta in Hrange.
  specialize (Hrange Hne).
  pose proof (DoubleColor_rank_min t win) as [_ Hmin]. cbv zeta in Hmin.
  destruct Hmin as [_ Hle]; [by destruct (DoubleColor_hits t win)|].
  assert (Hl : l ∈ map fst (DoubleColor_hits t win)).
  { apply list_elem_of_fmap. by exists (l, m). }
  specialize (Hle l Hl). lia.
Qed.

(** A 6-token subsequence of the reds, paired with a selected blue, is one
    of the pairs [Verify] scores, however long the row is. *)
Lemma DoubleColor_hit_of_sublist t win (c : list string) (b : string) (l m : Z) :
  c `sublist_of` Red t ->
  length c = 6%nat ->
  b ∈ Blue t ->
  DoubleColor_pair_spec win (c, b) = Some (l, m) ->
  (l, m) ∈ DoubleColor_hits t win.
Proof.
  intros Hsub Hlen Hb Hpair.
  unfold DoubleColor_hits. apply list_elem_of_omap.
  exists (c, b). split; [|exact Hpair].
  unfold DoubleColor_pairs. apply list_elem_of_bind.
  exists c. split.
  - apply list_elem_of_bind. exists b. split; [by left|exact Hb].
  - rewrite combinations_subseqs by apply int6_range.
    by apply subseqs_complete.
Qed.

Lemma intersect_cons (x : string) (c w : list string) :
  intersect (x :: c) w
  = ((if bool_decide (x ∈ w) then 1 else 0) + intersect c w)%nat.
Proof.
  rewrite !intersect_filter, filter_cons.
  destruct (decide (x ∈ w)) as [H|H].
  - by rewrite bool_decide_eq_true_2.
  - by rewrite bool_decide_eq_false_2.
Qed.

(** [hits_fold] is the sum over the enumerated subsequences. *)
Lemma hits_fold_spec (f : nat -> Z) (w l : list string) (k h : nat) :
  hits_fold f w l k h
  = sum_Z (map (fun c => f (h + intersect c w)%nat) (subseqs l k)).
Proof.
  revert k h. induction l as [|x l IH]; intros [|k] h.
  - simpl. rewrite Nat.add_0_r. lia.
  - reflexivity.
  - simpl. rewrite Nat.add_0_r. lia.
  - change (subseqs (x :: l) (S k))
      with (map (cons x) (subseqs l k) ++ subseqs l (S k)).
    rewrite map_app, sum_Z_app, map_map.
    change (hits_fold f w (x :: l) (S k) h)
      with (hits_fold f w l k (if bool_decide (x ∈ w) then S h else h)
            + hits_fold f w l (S k) h).
    rewrite !IH. f_equal. f_equal. apply map_ext. intros c.
    rewrite intersect_cons. f_equal.
    destruct (bool_decide (x ∈ w)); lia.
Qed.

(** The payouts of one blue token summed over all combinations. *)
Lemma DoubleColor_money_sum_fold win (red : list string) (b : string) :
  sum_Z (map (fun c => DoubleColor_money win c b) (combinations red 6))
  = hits_fold
      (fun h => (default (0, 0)
                   (DoubleColor_tier_spec h (DoubleColor_blueHits_spec win b))).2)
      (WinRed win) red 6 0.
Proof.
  rewrite hits_fold_spec, combinations_subseqs by apply int6_range. reflexivity.
Qed.

(** A row whose blues are [p] copies of one token and [q] of another. *)
Lemma DoubleColor_exact_total_two_blues red (p q : nat) (b1 b0 : string) mult mode win :
  DoubleColor_exact_total
    {| Red := red; Blue := replicate p b1 ++ replicate q b0;
       Multiplier := mult; Mode := mode |} win
  = Z.of_nat p * sum_Z (map (fun c => DoubleColor_money win c b1) (combinations red 6))
    + Z.of_nat q * sum_Z (map (fun c => DoubleColor_money win c b0) (combinations red 6)).
Proof.
  rewrite DoubleColor_exact_total_nested. simpl Red. simpl Blue.
  rewrite <- !sum_Z_scale.
  induction (combinations red 6) as [|c cs IH]; [reflexivity|].
  simpl. rewrite IH, map_app, sum_Z_app, !sum_Z_replicate. lia.
Qed.

(** A row of [p] copies of one blue token and [q] of another whose exact
    payout sum wraps to zero although one of its pairs is of the first tier. *)
Lemma DoubleColor_two_blue_row (reds : list string) (p q : nat) (win : WinningNumbers)
    (b1 b0 : string) (S1 S0 : Z) (c : list string) (m : Z) :
  hits_fold
    (fun h => (default (0, 0)
                 (DoubleColor_tier_spec h (DoubleColor_blueHits_spec win b1))).2)
    (WinRed win) reds 6 0 = S1 ->
  hits_fold
    (fun h => (default (0, 0)
                 (DoubleColor_tier_spec h (DoubleColor_blueHits_spec win b0))).2)
    (WinRed win) reds 6 0 = S0 ->
  wrap64 (Z.of_nat p * S1 + Z.of_nat q * S0) = 0 ->
  c `sublist_of` reds ->
  length c = 6%nat ->
  DoubleColor_pair_spec win (c, b1) = Some (1, m) ->
  (0 < p)%nat ->
  sum_Z (map snd (DoubleColor_hits
                    {| Red := reds; Blue := replicate p b1 ++ replicate q b0;
                       Multiplier := 1; Mode := "" |} win))
  = Z.of_nat p * S1 + Z.of_nat q * S0
  /\ DoubleColorVerifier_Verify
       {| Red := reds; Blue := replicate p b1 ++ replicate q b0;
          Multiplier := 1; Mode := "" |} win
     = (1, 0, status_no_win).
Proof.
  intros H1 H0 Hwrap Hsub Hlen Hpair Hp.
  pose proof (DoubleColor_exact_total_two_blues reds p q b1 b0 1 "" win) as Hsum.
  rewrite !DoubleColor_money_sum_fold, H1, H0 in Hsum.
  unfold DoubleColor_exact_total in Hsum.
  assert (Hhit : (1, m) ∈ DoubleColor_hits
                   {| Red := reds; Blue := replicate p b1 ++ replicate q b0;
                      Multiplier := 1; Mode := "" |} win).
  { apply (DoubleColor_hit_of_sublist _ _ c b1); [exact Hsub|exact Hlen| |exact Hpair].
    cbn [Blue]. destruct p as [|p']; [lia|]. by left. }
  pose proof (DoubleColor_total_wrap
                {| Red := reds; Blue := replicate p b1 ++ replicate q b0;
                   Multiplier := 1; Mode := "" |} win) as Htot.
  unfold DoubleColor_exact_total in Htot.
  revert Hsum Hhit Htot.
  generalize ({| Red := reds; Blue := replicate p b1 ++ replicate q b0;
                 Multiplier := 1; Mode := "" |}).
  intros t Hsum Hhit Htot.
  split; [exact Hsum|].
  rewrite Hsum, Hwrap in Htot.
  pose proof (DoubleColor_rank_le_hit t win 1 m Hhit) as Hrank.
  rewrite DoubleColorVerifier_Verify_status. cbv zeta.
  rewrite Htot. replace ((DoubleColorVerifier_Verify t win).1.1) with 1 by lia.
  reflexivity.
Qed.

(** C10, counterexample. A row of legal size: 24 reds, the six winning
    tokens three times each and six others, with 980,781,124 copies of the
    winning blue 07 and 555,491,658 copies of 06. Over its C(24,6) = 134,596
    combinations one blue 07 pays 92,983,579,220 and one blue 06 pays
    1,867,140,600, so the pair payouts sum to exactly 5 * 2^64: the wrapped
    total is 0 while the rank is 1. *)
Lemma DoubleColor_rank_without_payout :
  let t := row_24 (Z.to_nat 980781124) (Z.to_nat 555491658) in
  sum_Z (map snd (DoubleColor_hits t draw_2025107)) = 5 * 2 ^ 64
  /\ DoubleColorVerifier_Verify t draw_2025107 = (1, 0, status_no_win).
Proof.
  intros t. subst t. unfold row_24.
  assert (H1 : hits_fold
            (fun h => (default (0, 0)
               (DoubleColor_tier_spec h (DoubleColor_blueHits_spec draw_2025107 "07"))).2)
            (WinRed draw_2025107) reds_24 6 0 = 92983579220)
    by (vm_compute; reflexivity).
  assert (H0 : hits_fold
            (fun h => (default (0, 0)
               (DoubleColor_tier_spec h (DoubleColor_blueHits_spec draw_2025107 "06"))).2)
            (WinRed draw_2025107) reds_24 6 0 = 1867140600)
    by (vm_compute; reflexivity).
  assert (Hsub : ["02"; "11"; "15"; "21"; "28"; "33"] `sublist_of` reds_24).
  { apply (sublist_inserts_r
             ["02"; "11"; "15"; "21"; "28"; "33"; "02"; "11"; "15"; "21"; "28"; "33";
              "01"; "03"; "04"; "05"; "06"; "08"]
             ["02"; "11"; "15"; "21"; "28"; "33"]
             ["02"; "11"; "15"; "21"; "28"; "33"]).
    reflexivity. }
  assert (Hpair : DoubleColor_pair_spec draw_2025107
                    (["02"; "11"; "15"; "21"; "28"; "33"], "07") = Some (1, 5000000))
    by (vm_compute; reflexivity).
  assert (Htotal : 980781124 * 92983579220 + 555491658 * 1867140600 = 5 * 2 ^ 64)
    by (vm_compute; reflexivity).
  assert (Hwrap : wrap64 (980781124 * 92983579220 + 555491658 * 1867140600) = 0)
    by (vm_compute; reflexivity).
  pose proof (Z2Nat.id 980781124 ltac:(lia)) as Hp.
  pose proof (Z2Nat.id 555491658 ltac:(lia)) as Hq.
  assert (Hpos : (0 < Z.to_nat 980781124)%nat) by lia.
  revert Hp Hq Hpos.
  generalize (Z.to_nat 980781124). generalize (Z.to_nat 555491658).
  intros q p Hp Hq Hpos.
  rewrite <- Hp in Htotal, Hwrap at 1. rewrite <- Hq in Htotal, Hwrap at 1.
  revert H1 H0 Hsub. generalize reds_24. intros reds H1 H0 Hsub.
  rewrite <- Htotal.
  exact (DoubleColor_two_blue_row reds p q draw_2025107 "07" "06"
           92983579220 1867140600 ["02"; "11"; "15"; "21"; "28"; "33"] 5000000
           H1 H0 Hwrap Hsub eq_refl Hpair Hpos).
Qed.

(** ** C4: [LottoVerifier.Verify] *)

(** C4. [LottoVerifier.Verify] counts the row's red tokens that occur
    among the winning reds and the row's blue tokens that occur among the
    winning blues, over the full token lists, and returns the rank and
    payout the Lotto table lists for that pair of counts, or (0, 0) when
    the table has no entry for it. *)
Theorem LottoVerifier_Verify_table (t : UserTicket) (win : WinningNumbers) :
  let redHits := intersect (Red t) (WinRed win) in
  let blueHits := intersect (Blue t) (WinBlue win) in
  let result := LottoVerifier_Verify t win in
  redHits = length (filter (fun x => x ∈ WinRed win) (Red t))
  /\ blueHits = length (filter (fun x => x ∈ WinBlue win) (Blue t))
  /\ (result.1.1, result.1.2)
     = default (0, 0) (table_lookup Lotto_table redHits blueHits)
  /\ result.2 = (if 0 <? result.1.2 then status_win result.1.2 else status_no_win).
Proof.
  intros redHits blueHits result. subst redHits blueHits result.
  split; [apply intersect_filter|]. split; [apply intersect_filter|].
  rewrite LottoVerifier_Verify_tier. simpl.
  rewrite <- Lotto_tier_table. split; [|done].
  by destruct (Lotto_tier _ _).
Qed.

(** The table read entry by entry. *)
Lemma Lotto_table_entries (redHits blueHits : nat) :
  table_lookup Lotto_table redHits blueHits
  = match redHits, blueHits with
    | 5%nat, 2%nat => Some (1, 10000000)
    | 5%nat, 1%nat => Some (2, 200000)
    | 5%nat, 0%nat => Some (3, 10000)
    | 4%nat, 2%nat => Some (4, 3000)
    | 4%nat, 1%nat => Some (5, 300)
    | 3%nat, 2%nat => Some (6, 200)
    | 4%nat, 0%nat => Some (7, 100)
    | 3%nat, 1%nat => Some (8, 15)
    | 2%nat, 2%nat => Some (8, 15)
    | 3%nat, 0%nat => Some (9, 5)
    | 2%nat, 1%nat => Some (9, 5)
    | 1%nat, 2%nat => Some (9, 5)
    | 0%nat, 2%nat => Some (9, 5)
    | _, _ => None
    end.
Proof.
  destruct redHits as [|[|[|[|[|[|r]]]]]];
    destruct blueHits as [|[|[|b]]]; reflexivity.
Qed.

Lemma DoubleColor_table_entries (redHits blueHits : nat) :
  DoubleColor_tier_spec redHits blueHits
  = match redHits, blueHits with
    | 6%nat, 1%nat => Some (1, 5000000)
    | 6%nat, 0%nat => Some (2, 100000)
    | 5%nat, 1%nat => Some (3, 3000)
    | 5%nat, 0%nat => Some (4, 200)
    | 4%nat, 1%nat => Some (4, 200)
    | 4%nat, 0%nat => Some (5, 10)
    | 3%nat, 1%nat => Some (5, 10)
    | _, 1%nat => Some (6, 5)
    | _, _ => None
    end.
Proof.
  destruct redHits as [|[|[|[|[|[|[|r]]]]]]];
    destruct blueHits as [|[|b]]; reflexivity.
Qed.

(** ** C7: [Permutation5Verifier.Verify] *)

Lemma Permutation5_scan_spec (red winRed : list string) (i fuel : nat) :
  Permutation5_scan red winRed i fuel = true
  <-> forall j, (i <= j < i + fuel)%nat -> red !! j = winRed !! j.
Proof.
  revert i. induction fuel as [|fuel IH]; intros i; simpl.
  - split; [intros _ j Hj; lia|done].
  - destruct (decide (red !! i = winRed !! i)) as [Heq|Hne].
    + rewrite bool_decide_eq_true_2 by done. rewrite IH. split.
      * intros H j Hj. destruct (decide (j = i)) as [->|Hji]; [done|].
        apply H. lia.
      * intros H j Hj. apply H. lia.
    + rewrite bool_decide_eq_false_2 by done. split; [done|].
      intros H. exfalso. apply Hne, H. lia.
Qed.

Lemma Permutation5_match_spec t win :
  Permutation5_match t win = true <-> Permutation5_matches t win.
Proof.
  unfold Permutation5_match, Permutation5_matches.
  destruct (Nat.eqb_spec (length (Red t)) 5) as [H1|H1]; cbn [negb orb].
  - destruct (Nat.eqb_spec (length (WinRed win)) 5) as [H2|H2]; cbn [negb orb].
    + rewrite Permutation5_scan_spec. split.
      * intros H. repeat split; [done..|]. intros i Hi. apply H. lia.
      * intros (_ & _ & H) j Hj. apply H. lia.
    + split; [done|]. intros (_ & ? & _). done.
  - split; [done|]. intros (? & _). done.
Qed.

(** C7. [Permutation5Verifier.Verify] returns rank 1, payout 100,000 and
    the first-prize status exactly when the row's reds and the winning reds
    both have length 5 and agree at every position; in every other case,
    length mismatches included, it returns rank 0, payout 0 and the no-win
    status. A matching row of pairwise distinct tokens no longer wins once
    its reds are reversed. *)
Theorem Permutation5Verifier_Verify_positional (t : UserTicket) (win : WinningNumbers) :
  (Permutation5_matches t win ->
   Permutation5Verifier_Verify t win = (1, 100000, status_first_prize))
  /\ (~ Permutation5_matches t win ->
      Permutation5Verifier_Verify t win = (0, 0, status_no_win))
  /\ (Permutation5_matches t win -> NoDup (Red t) ->
      Permutation5Verifier_Verify (with_red t (reverse (Red t))) win
      = (0, 0, status_no_win)).
Proof.
  unfold Permutation5Verifier_Verify. split; [|split].
  - intros H. apply Permutation5_match_spec in H. by rewrite H.
  - intros H. destruct (Permutation5_match t win) eqn:E; [|done].
    apply Permutation5_match_spec in E. done.
  - intros (Hl & Hw & Hpos) Hnd.
    destruct (Permutation5_match (with_red t (reverse (Red t))) win) eqn:E; [|done].
    exfalso. apply Permutation5_match_spec in E as (_ & _ & Hrev).
    simpl in Hrev.
    destruct (Red t) as [|a [|b [|c [|d [|e [|? ?]]]]]]; try discriminate Hl.
    pose proof (Hpos 0%nat ltac:(lia)) as H0.
    pose proof (Hrev 0%nat ltac:(lia)) as H0'.
    simpl in H0. rewrite <- H0 in H0'. cbn in H0'.
    injection H0' as ->.
    apply NoDup_cons in Hnd as [Hnotin _]. apply Hnotin.
    rewrite !elem_of_cons. tauto.
Qed.

Lemma Permutation5Verifier_Verify_positional_witness :
  Permutation5Verifier_Verify
    {| Red := ["1"; "2"; "3"; "4"; "5"]; Blue := []; Multiplier := 1; Mode := "" |}
    {| WinRed := ["1"; "2"; "3"; "4"; "5"]; WinBlue := [] |}
  = (1, 100000, status_first_prize)
  /\ Permutation5Verifier_Verify
       {| Red := ["1"; "2"; "3"; "4"]; Blue := []; Multiplier := 1; Mode := "" |}
       {| WinRed := ["1"; "2"; "3"; "4"; "5"]; WinBlue := [] |}
     = (0, 0, status_no_win)
  /\ Permutation5Verifier_Verify
       {| Red := ["5"; "4"; "3"; "2"; "1"]; Blue := []; Multiplier := 1; Mode := "" |}
       {| WinRed := ["1"; "2"; "3"; "4"; "5"]; WinBlue := [] |}
     = (0, 0, status_no_win).
Proof.
  assert (Hm : Permutation5_matches
                 {| Red := ["1"; "2"; "3"; "4"; "5"]; Blue := []; Multiplier := 1; Mode := "" |}
                 {| WinRed := ["1"; "2"; "3"; "4"; "5"]; WinBlue := [] |}).
  { repeat split. }
  split; [|split].
  - by apply Permutation5Verifier_Verify_positional.
  - apply Permutation5Verifier_Verify_positional.
    intros (Hl & _). simpl in Hl. lia.
  - apply (proj2 (proj2 (Permutation5Verifier_Verify_positional _ _)) Hm).
    simpl. repeat (apply NoDup_cons; split;
      [rewrite ?elem_of_cons, elem_of_nil; intros H;
       repeat (destruct H as [H|H]; [discriminate H|]); exact H|]).
    apply NoDup_nil_2.
Defined.

(** ** C8, C2, C3: the handler *)

Lemma String_prefix_spec (p s : string) :
  String.prefix p s = true <-> exists suf, s = p +:+ suf.
Proof.
  revert s. induction p as [|a p IH]; intros s.
  - destruct s; simpl; (split; [intros _; by eexists|done]).
  - destruct s as [|b s]; simpl.
    + split; [done|]. intros [suf Hs]. discriminate Hs.
    + destruct (Ascii.ascii_dec a b) as [->|Hne].
      * rewrite IH. split; intros [suf Hs]; exists suf.
        -- simpl. by rewrite Hs.
        -- simpl in Hs. by injection Hs.
      * split; [done|]. intros [suf Hs]. simpl in Hs. injection Hs as ? ?. done.
Qed.

(** [strings_Contains s substr] holds exactly when [substr] occurs in [s]
    as a contiguous run of bytes. *)
Lemma strings_Contains_spec (s substr : string) :
  strings_Contains s substr = true <-> exists pre suf, s = pre +:+ substr +:+ suf.
Proof.
  induction s as [|a s IH]; cbn [strings_Contains].
  - destruct (String.prefix substr "") eqn:E.
    + split; [intros _|done]. apply String_prefix_spec in E as [suf Hs].
      by exists "", suf.
    + split; [done|]. intros (pre & suf & Hs).
      destruct pre; [|discriminate Hs]. simpl in Hs.
      assert (String.prefix substr "" = true) by (apply String_prefix_spec; eauto).
      congruence.
  - destruct (String.prefix substr (String a s)) eqn:E.
    + split; [intros _|done]. apply String_prefix_spec in E as [suf Hs].
      by exists "", suf.
    + rewrite IH. split.
      * intros (pre & suf & ->). by exists (String a pre), suf.
      * intros (pre & suf & Hs). destruct pre as [|a' pre].
        -- simpl in Hs.
           assert (String.prefix substr (String a s) = true)
             by (apply String_prefix_spec; eauto).
           congruence.
        -- injection Hs as -> ->. by exists pre, suf.
Qed.

(** C8. The verifier is chosen by bytewise (case-sensitive) substring
    containment of the DoubleColor label, then the Lotto label, then the
    Permutation5 label, the first that occurs winning. When none occurs
    there is no verifier, and whatever the rows are the ticket's result has
    total payout 0 and the single unsupported-game detail. *)
Theorem select_verifier_priority (TrimSpace : string -> string) (lotteryType : string) :
  (occurs_in label_DoubleColor lotteryType ->
   select_verifier lotteryType = Some DoubleColorVerifier)
  /\ (~ occurs_in label_DoubleColor lotteryType ->
      occurs_in label_Lotto lotteryType ->
      select_verifier lotteryType = Some LottoVerifier)
  /\ (~ occurs_in label_DoubleColor lotteryType ->
      ~ occurs_in label_Lotto lotteryType ->
      occurs_in label_Permutation5 lotteryType ->
      select_verifier lotteryType = Some Permutation5Verifier)
  /\ (~ occurs_in label_DoubleColor lotteryType ->
      ~ occurs_in label_Lotto lotteryType ->
      ~ occurs_in label_Permutation5 lotteryType ->
      select_verifier lotteryType = None
      /\ forall (idx : nat) (issue : string) (rows : list UserTicket),
           let lottery := {| Type_ := lotteryType; Issue := issue; Tickets := rows |} in
           verify_lottery TrimSpace idx lottery
           = {| TicketIndex := Z.of_nat idx + 1; OCRData := lottery;
                TotalPrize := 0; Details := [unsupported_detail] |}).
Proof.
  unfold occurs_in, select_verifier.
  pose proof (strings_Contains_spec lotteryType label_DoubleColor) as H1.
  pose proof (strings_Contains_spec lotteryType label_Lotto) as H2.
  pose proof (strings_Contains_spec lotteryType label_Permutation5) as H3.
  split; [|split; [|split]].
  - intros H. apply H1 in H. by rewrite H.
  - intros N1 H. apply H2 in H. rewrite H.
    destruct (strings_Contains lotteryType label_DoubleColor); [|done].
    exfalso. apply N1, H1. done.
  - intros N1 N2 H. apply H3 in H. rewrite H.
    destruct (strings_Contains lotteryType label_DoubleColor);
      [exfalso; apply N1, H1; done|].
    destruct (strings_Contains lotteryType label_Lotto);
      [exfalso; apply N2, H2; done|]. done.
  - intros N1 N2 N3.
    assert (Hsel : select_verifier lotteryType = None).
    { unfold select_verifier.
      destruct (strings_Contains lotteryType label_DoubleColor);
        [exfalso; apply N1, H1; done|].
      destruct (strings_Contains lotteryType label_Lotto);
        [exfalso; apply N2, H2; done|].
      destruct (strings_Contains lotteryType label_Permutation5);
        [exfalso; apply N3, H3; done|]. done. }
    split; [exact Hsel|].
    intros idx issue rows. cbv zeta. unfold verify_lottery.
    cbn [Type_]. rewrite Hsel. reflexivity.
Qed.

Lemma select_verifier_priority_witness :
  select_verifier "大乐透与双色球" = Some DoubleColorVerifier
  /\ select_verifier "超级大乐透" = Some LottoVerifier.
Proof.
  split.
  - apply (select_verifier_priority (fun s => s) "大乐透与双色球").
    exists "大乐透与", "". reflexivity.
  - apply (select_verifier_priority (fun s => s) "超级大乐透").
    + intros H. apply strings_Contains_spec in H. vm_compute in H. discriminate H.
    + exists "超级", "". reflexivity.
Defined.

Example scenario_E :
  verify_lottery (fun s => s) 0
    {| Type_ := "Scratch-off"; Issue := "2025107";
       Tickets := [ {| Red := ["02"; "11"; "15"; "21"; "28"; "33"]; Blue := ["07"];
                       Multiplier := 1; Mode := "" |} ] |}
  = {| TicketIndex := 1;
       OCRData := {| Type_ := "Scratch-off"; Issue := "2025107";
                     Tickets := [ {| Red := ["02"; "11"; "15"; "21"; "28"; "33"];
                                     Blue := ["07"]; Multiplier := 1; Mode := "" |} ] |};
       TotalPrize := 0;
       Details := [ {| RowIndex := 0; Level := 0; Prize := 0;
                       Status := "暂不支持该彩种验奖" |} ] |}.
Proof. vm_compute. reflexivity. Qed.

Lemma verify_rows_spec v win (rowIdx : nat) (rows : list UserTicket) res :
  verify_rows v win rowIdx rows res
  = {| TicketIndex := TicketIndex res; OCRData := OCRData res;
       TotalPrize := foldl (fun acc t => wrap64 (acc + row_total v win t))
                           (TotalPrize res) rows;
       Details := Details res ++ imap (fun j t => row_detail v win (rowIdx + j) t) rows |}.
Proof.
  revert rowIdx res. induction rows as [|t rows IH]; intros rowIdx res.
  - simpl. rewrite app_nil_r. by destruct res.
  - cbn [verify_rows].
    destruct (Verify v t win) as [[level prize] status] eqn:E.
    rewrite IH. cbn [TicketIndex OCRData TotalPrize Details foldl imap].
    f_equal.
    + unfold row_total. by rewrite E.
    + rewrite <- app_assoc. f_equal. simpl. f_equal.
      * unfold row_detail, row_total. rewrite E, Nat.add_0_r. done.
      * apply imap_ext. intros j x _. simpl. f_equal. lia.
Qed.

Lemma foldl_wrap64_sum {A : Type} (g : A -> Z) (l : list A) (a : Z) :
  in_int64 a ->
  foldl (fun acc x => wrap64 (acc + g x)) a l = wrap64 (a + sum_Z (map g l)).
Proof.
  revert a. induction l as [|x l IH]; intros a Ha; simpl.
  - rewrite Z.add_0_r. symmetry. by apply wrap64_id.
  - rewrite IH by apply wrap64_range. rewrite wrap64_add_l. f_equal. lia.
Qed.

Lemma verifyHandler_ok TrimSpace ocr (image key : string) (results : list LotteryData) :
  key <> "" -> ocr image key = inl results ->
  verifyHandler TrimSpace ocr (Some image) key
  = JSON_ok 200 (imap (verify_lottery TrimSpace) results).
Proof.
  intros Hkey Hocr. unfold verifyHandler.
  rewrite bool_decide_eq_false_2 by done. by rewrite Hocr.
Qed.

(** C3 (as amended). For a ticket of a supported game, every row gets a
    detail whose prize is the verifier's payout times the row's multiplier
    computed in [int64]: the product reduced modulo 2^64 into the signed
    range. The prize is the exact product whenever that lies in the
    [int64] range, in particular for a payout up to 10,000,000 and a
    multiplier up to 922,337,203,685; the ticket total is the wrapped sum of
    the row prizes. No error is raised on overflow. *)
Theorem row_contribution_wraps (TrimSpace : string -> string) (idx : nat)
    (lottery : LotteryData) (v : Verifier) :
  select_verifier (Type_ lottery) = Some v ->
  let win := getMockWinningNumber TrimSpace (Type_ lottery) (Issue lottery) in
  let res := verify_lottery TrimSpace idx lottery in
  let payout t := (Verify v t win).1.2 in
  Details res
  = imap (fun j t => {| RowIndex := Z.of_nat j + 1; Level := (Verify v t win).1.1;
                        Prize := wrap64 (payout t * Multiplier t);
                        Status := (Verify v t win).2 |}) (Tickets lottery)
  /\ TotalPrize res
     = wrap64 (sum_Z (map (fun t => wrap64 (payout t * Multiplier t)) (Tickets lottery)))
  /\ (forall t, in_int64 (payout t * Multiplier t) ->
        wrap64 (payout t * Multiplier t) = payout t * Multiplier t)
  /\ (forall t, 0 <= payout t <= 10000000 -> 0 <= Multiplier t <= 922337203685 ->
        wrap64 (payout t * Multiplier t) = payout t * Multiplier t).
Proof.
  intros Hsel win res payout. subst res. unfold verify_lottery.
  rewrite Hsel. fold win. rewrite verify_rows_spec.
  cbn [Details TotalPrize app]. split; [|split; [|split]].
  - apply imap_ext. intros j t _. reflexivity.
  - rewrite (foldl_wrap64_sum (row_total v win)).
    + reflexivity.
    + unfold in_int64, min_int64, max_int64. lia.
  - intros t Ht. by apply wrap64_id.
  - intros t Hp Hm. apply wrap64_id. unfold in_int64, min_int64, max_int64. nia.
Qed.

Lemma row_contribution_wraps_witness :
  Details (verify_lottery (fun s => s) 0
             {| Type_ := "双色球"; Issue := "2025107";
                Tickets := [ {| Red := ["02"; "11"; "15"; "21"; "28"; "33"];
                                Blue := ["06"]; Multiplier := 3; Mode := "" |} ] |})
  = [ {| RowIndex := 1; Level := 2; Prize := 300000; Status := "中奖: 100000元" |} ].
Proof.
  rewrite (proj1 (row_contribution_wraps (fun s => s) 0
             {| Type_ := "双色球"; Issue := "2025107";
                Tickets := [ {| Red := ["02"; "11"; "15"; "21"; "28"; "33"];
                                Blue := ["06"]; Multiplier := 3; Mode := "" |} ] |}
             DoubleColorVerifier eq_refl)).
  vm_compute. reflexivity.
Defined.

(** C3, counterexample. A first-prize DoubleColor row with multiplier
    1,844,674,407,371: the product 5,000,000 * 1,844,674,407,371 exceeds
    2^63 - 1, and the handler answers 200 with the wrapped, negative prize
    instead of reporting an error. *)
Lemma overflowing_row_is_wrapped :
  let t := {| Red := ["02"; "11"; "15"; "21"; "28"; "33"]; Blue := ["07"];
              Multiplier := 1844674407371; Mode := "" |} in
  let lottery := {| Type_ := "双色球"; Issue := "2025107"; Tickets := [t] |} in
  (DoubleColorVerifier_Verify t draw_2025107).1.2 = 5000000
  /\ max_int64 < 5000000 * Multiplier t
  /\ verifyHandler (fun s => s) (fun _ _ => inl [lottery]) (Some "image") "key"
     = JSON_ok 200
         [ {| TicketIndex := 1; OCRData := lottery;
              TotalPrize := -9223372036854551616;
              Details := [ {| RowIndex := 1; Level := 1;
                              Prize := -9223372036854551616;
                              Status := "中奖: 5000000元" |} ] |} ].
Proof. vm_compute. done. Qed.

Lemma DoubleColor_pairs_length t :
  length (DoubleColor_pairs t)
  = (binomial (length (Red t)) 6 * length (Blue t))%nat.
Proof.
  unfold DoubleColor_pairs.
  rewrite <- (subseqs_length (Red t) 6).
  change 6%nat with (Z.to_nat 6).
  rewrite <- combinations_subseqs by apply int6_range.
  assert (Hrow : forall (c : list string) (bs : list string),
             length (b ← bs; [(c, b)]) = length bs).
  { intros c bs. induction bs as [|b bs IHb]; [done|].
    rewrite bind_cons. simpl. by rewrite IHb. }
  induction (combinations (Red t) 6) as [|c cs IH]; [done|].
  rewrite bind_cons, length_app, IH, Hrow. done.
Qed.

(** C2 (as amended). There is no bound on the number of red tokens. For
    every row, whatever the number N of its reds,
    [DoubleColorVerifier.Verify] expands all C(N, 6) combinations and scores
    all C(N, 6) * |blue| pairs: the returned total is the wrapped sum of the
    payouts of all hitting pairs, every 6-token subsequence of the reds that
    hits a tier with a selected blue bounds the returned rank, and the
    status is the win text when the total is positive and the no-win text
    otherwise, never an error. Once the recognizer has produced tickets the
    handler answers 200, and every row of a DoubleColor ticket gets a detail
    that carries the rank and status [Verify] returned and its payout times
    the multiplier. *)
Theorem DoubleColor_expansion_unbounded (TrimSpace : string -> string)
    (ocr : string -> string -> list LotteryData + string)
    (image key : string) (results : list LotteryData) :
  key <> "" ->
  ocr image key = inl results ->
  verifyHandler TrimSpace ocr (Some image) key
  = JSON_ok 200 (imap (verify_lottery TrimSpace) results)
  /\ (forall (idx : nat) (lottery : LotteryData),
        select_verifier (Type_ lottery) = Some DoubleColorVerifier ->
        let win := getMockWinningNumber TrimSpace (Type_ lottery) (Issue lottery) in
        Details (verify_lottery TrimSpace idx lottery)
        = imap (fun j t =>
                  {| RowIndex := Z.of_nat j + 1;
                     Level := (DoubleColorVerifier_Verify t win).1.1;
                     Prize := wrap64 ((DoubleColorVerifier_Verify t win).1.2
                                      * Multiplier t);
                     Status := (DoubleColorVerifier_Verify t win).2 |})
               (Tickets lottery))
  /\ (forall (t : UserTicket) (win : WinningNumbers),
        let rank := (DoubleColorVerifier_Verify t win).1.1 in
        let total := (DoubleColorVerifier_Verify t win).1.2 in
        let status := (DoubleColorVerifier_Verify t win).2 in
        length (combinations (Red t) 6) = binomial (length (Red t)) 6
        /\ length (DoubleColor_pairs t)
           = (binomial (length (Red t)) 6 * length (Blue t))%nat
        /\ ((6 <= length (Red t))%nat -> combinations (Red t) 6 <> [])
        /\ total = wrap64 (sum_Z (map snd (DoubleColor_hits t win)))
        /\ (forall (c : list string) (b : string) (l m : Z),
              c `sublist_of` Red t -> length c = 6%nat -> b ∈ Blue t ->
              DoubleColor_pair_spec win (c, b) = Some (l, m) ->
              1 <= rank <= l)
        /\ (DoubleColor_hits t win = [] -> rank = 0 /\ total = 0)
        /\ status = (if 0 <? total then status_win total else status_no_win)).
Proof.
  intros Hkey Hocr. split; [by apply verifyHandler_ok|]. split.
  - intros idx lottery Hsel win. unfold verify_lottery. rewrite Hsel. fold win.
    rewrite verify_rows_spec. cbn [Details app].
    apply imap_ext. intros j t _. reflexivity.
  - intros t win rank total status. subst rank total status.
    assert (Hlen : length (combinations (Red t) 6) = binomial (length (Red t)) 6).
    { rewrite combinations_subseqs by apply int6_range. apply subseqs_length. }
    split; [exact Hlen|]. split; [apply DoubleColor_pairs_length|].
    split; [|split; [|split; [|split]]].
    + intros H6 Hnil. rewrite Hnil in Hlen. simpl in Hlen.
      pose proof (binomial_pos (length (Red t)) 6 H6). lia.
    + apply DoubleColor_total_wrap.
    + intros c b l m Hsub Hc Hb Hpair.
      apply (DoubleColor_rank_le_hit t win l m).
      by apply (DoubleColor_hit_of_sublist t win c b).
    + intros He. rewrite DoubleColorVerifier_Verify_loops, He. done.
    + rewrite DoubleColorVerifier_Verify_status at 1. reflexivity.
Qed.

Lemma DoubleColor_expansion_unbounded_witness :
  let lottery := {| Type_ := "双色球"; Issue := "2025107"; Tickets := [row_of_ten] |} in
  verifyHandler (fun s => s) (fun _ _ => inl [lottery]) (Some "image") "key"
  = JSON_ok 200
      [ {| TicketIndex := 1; OCRData := lottery; TotalPrize := 1050;
           Details := [ {| RowIndex := 1; Level := 6; Prize := 1050;
                           Status := "中奖: 1050元" |} ] |} ]
  /\ length (combinations (Red row_of_ten) 6) = 210%nat.
Proof.
  intros lottery. split.
  - rewrite (proj1 (DoubleColor_expansion_unbounded (fun s => s)
                      (fun _ _ => inl [lottery]) "image" "key" [lottery]
                      ltac:(discriminate) eq_refl)).
    vm_compute. reflexivity.
  - rewrite (proj1 (proj2 (proj2 (DoubleColor_expansion_unbounded (fun s => s)
                      (fun _ _ => inl [lottery]) "image" "key" [lottery]
                      ltac:(discriminate) eq_refl)) row_of_ten draw_2025107)).
    reflexivity.
Defined.

(** C2, counterexample. No bound B makes [DoubleColorVerifier.Verify]
    refuse the rows with more than B reds: for every B the row of the six
    winning reds of drawing 2025107 followed by B + 1 further reds, with the
    winning blue, is expanded and ranked 1, and its status is the win or the
    no-win text. *)
Lemma no_limit_on_red_tokens :
  ~ exists B : nat,
      forall (t : UserTicket) (win : WinningNumbers),
        (B < length (Red t))%nat ->
        (DoubleColorVerifier_Verify t win).1.1 = 0
        \/ ((DoubleColorVerifier_Verify t win).2 <> status_no_win
            /\ forall m : Z, (DoubleColorVerifier_Verify t win).2 <> status_win m).
Proof.
  intros [B HB].
  assert (Hlen : (B < length (Red (row_six_and (S B))))%nat).
  { unfold row_six_and. cbn [Red]. rewrite length_app, length_replicate.
    simpl length. lia. }
  assert (Hhit : (1, 5000000) ∈ DoubleColor_hits (row_six_and (S B)) draw_2025107).
  { apply (DoubleColor_hit_of_sublist _ _ ["02"; "11"; "15"; "21"; "28"; "33"] "07").
    - unfold row_six_and. cbn [Red]. apply sublist_inserts_r. reflexivity.
    - reflexivity.
    - unfold row_six_and. cbn [Blue]. by left.
    - vm_compute. reflexivity. }
  specialize (HB (row_six_and (S B)) draw_2025107 Hlen).
  revert Hhit HB. generalize (row_six_and (S B)). intros t Hhit HB.
  pose proof (DoubleColor_rank_le_hit t draw_2025107 1 5000000 Hhit) as Hrank.
  destruct HB as [H0|[Hn Hw]]; [lia|].
  rewrite DoubleColorVerifier_Verify_status in Hn, Hw. cbv zeta in Hn, Hw.
  cbn [snd] in Hn, Hw.
  destruct (0 <? (DoubleColorVerifier_Verify t draw_2025107).1.2).
  - by apply (Hw ((DoubleColorVerifier_Verify t draw_2025107).1.2)).
  - by apply Hn.
Qed.

(** * Further properties of the code *)

(** ** [intersect] under concatenation, reordering and swapping *)

Lemma intersect_app (a1 a2 b : list string) :
  intersect (a1 ++ a2) b = (intersect a1 b + intersect a2 b)%nat.
Proof. rewrite !intersect_filter, filter_app, length_app. done. Qed.

Lemma intersect_Permutation_l (a a' b : list string) :
  a ≡ₚ a' -> intersect a b = intersect a' b.
Proof. intros H. rewrite !intersect_filter. by rewrite H. Qed.

Lemma intersect_set_r (a b b' : list string) :
  (forall x, x ∈ b <-> x ∈ b') -> intersect a b = intersect a b'.
Proof.
  intros H. rewrite !intersect_filter. f_equal. apply list_filter_iff. exact H.
Qed.

(** X1. The hit count of a concatenation is the sum of the hit counts of
    its parts, and it does not depend on the order of the row's tokens. *)
Theorem intersect_additive (a1 a2 b : list string) :
  intersect (a1 ++ a2) b = (intersect a1 b + intersect a2 b)%nat
  /\ (forall a', a1 ≡ₚ a' -> intersect a1 b = intersect a' b).
Proof. split; [apply intersect_app|]. intros a'. apply intersect_Permutation_l. Qed.

Lemma intersect_additive_witness :
  intersect ["01"; "02"; "03"] ["03"; "01"] = intersect ["03"; "02"; "01"] ["03"; "01"].
Proof.
  apply (proj2 (intersect_additive ["01"; "02"; "03"] [] ["03"; "01"])).
  change ["01"; "02"; "03"] with (reverse ["03"; "02"; "01"]).
  apply reverse_Permutation.
Defined.

(** X2. On lists without repeated tokens [intersect] is symmetric: both
    orders count the tokens the two lists share. *)
Theorem intersect_symmetric (a b : list string) :
  NoDup a -> NoDup b -> intersect a b = intersect b a.
Proof.
  intros Ha Hb. rewrite !intersect_filter.
  apply Permutation_length, NoDup_Permutation.
  - by apply NoDup_filter.
  - by apply NoDup_filter.
  - intros x. rewrite !list_elem_of_filter. tauto.
Qed.

Lemma string_list_NoDup_dec (l : list string) : bool_decide (NoDup l) = true -> NoDup l.
Proof. apply bool_decide_eq_true_1. Qed.

Lemma intersect_symmetric_witness :
  intersect ["01"; "02"; "03"] ["03"; "09"] = intersect ["03"; "09"] ["01"; "02"; "03"].
Proof.
  apply intersect_symmetric; apply string_list_NoDup_dec; vm_compute; reflexivity.
Defined.

(** X3. The hit count never exceeds the number of row tokens, and for a
    row without repeated tokens it never exceeds the number of winning
    tokens either; with repeated row tokens it can. *)
Theorem intersect_bounds (a b : list string) :
  (intersect a b <= length a)%nat
  /\ (NoDup a -> (intersect a b <= length b)%nat)
  /\ intersect ["01"; "01"] ["01"] = 2%nat.
Proof.
  split; [apply intersect_le|]. split; [|reflexivity].
  intros Ha. rewrite intersect_filter.
  apply submseteq_length, NoDup_submseteq.
  - by apply NoDup_filter.
  - intros x. rewrite list_elem_of_filter. tauto.
Qed.

Lemma intersect_bounds_witness :
  (intersect ["01"; "02"; "03"] ["03"; "09"] <= 2)%nat.
Proof.
  apply (proj1 (proj2 (intersect_bounds ["01"; "02"; "03"] ["03"; "09"]))).
  apply string_list_NoDup_dec. vm_compute. reflexivity.
Defined.

(** ** [combinations] at the edges *)

Lemma subseqs_full {A : Type} (l : list A) : subseqs l (length l) = [l].
Proof.
  induction l as [|x l IH]; [done|].
  change (subseqs (x :: l) (length (x :: l)))
    with (map (cons x) (subseqs l (length l)) ++ subseqs l (S (length l))).
  rewrite IH. simpl map.
  assert (subseqs l (S (length l)) = []) as ->; [|done].
  apply nil_length_inv. rewrite subseqs_length. apply binomial_lt. lia.
Qed.

(** X4. Asked for as many tokens as the list has, [combinations] returns
    the list itself as the only combination. *)
Theorem combinations_full (tokens : list string) :
  Z.of_nat (length tokens) <= max_int64 ->
  combinations tokens (Z.of_nat (length tokens)) = [tokens].
Proof.
  intros H. rewrite combinations_subseqs by lia.
  rewrite Nat2Z.id. apply subseqs_full.
Qed.

Lemma combinations_full_witness :
  combinations ["02"; "11"; "15"; "21"; "28"; "33"] 6
  = [["02"; "11"; "15"; "21"; "28"; "33"]].
Proof.
  apply (combinations_full ["02"; "11"; "15"; "21"; "28"; "33"]).
  unfold max_int64. simpl. lia.
Defined.

(** X5. A negative size yields no combination at all, also at the least
    [int], where the decrement wraps to the greatest one. *)
Theorem combinations_negative (tokens : list string) (r : Z) :
  min_int64 <= r < 0 ->
  Z.of_nat (length tokens) <= max_int64 ->
  combinations tokens r = [].
Proof.
  revert r. induction tokens as [|x l IH]; intros r Hr Hlen.
  - simpl. destruct (Z.eqb_spec r 0); [lia|done].
  - simpl combinations. destruct (Z.eqb_spec r 0); [lia|].
    simpl length in Hlen.
    rewrite (IH r) by lia. rewrite app_nil_r.
    destruct (decide (r = min_int64)) as [->|Hne].
    + assert (wrap64 (min_int64 - 1) = max_int64) as -> by reflexivity.
      rewrite combinations_subseqs by (unfold max_int64; lia).
      assert (subseqs l (Z.to_nat max_int64) = []) as ->; [|done].
      apply nil_length_inv. rewrite subseqs_length. apply binomial_lt. lia.
    + rewrite wrap64_id by (unfold in_int64, min_int64, max_int64 in *; lia).
      rewrite (IH (r - 1)) by lia. done.
Qed.

Lemma combinations_negative_witness :
  combinations ["01"; "02"; "03"] (-1) = [].
Proof.
  apply combinations_negative.
  - unfold min_int64. lia.
  - unfold max_int64. simpl. lia.
Defined.

(** ** [DoubleColorVerifier.Verify] on short and on base rows *)

Lemma DoubleColor_no_hits t win :
  DoubleColor_hits t win = [] ->
  DoubleColorVerifier_Verify t win = (0, 0, status_no_win).
Proof.
  intros H. rewrite DoubleColorVerifier_Verify_loops, H. reflexivity.
Qed.

(** X6. A row with fewer than six red tokens, or with no blue token, has
    no (combination, blue) pair and is scored as not winning, without any
    rejection. *)
Theorem DoubleColor_short_row (t : UserTicket) (win : WinningNumbers) :
  (length (Red t) < 6)%nat \/ Blue t = [] ->
  DoubleColorVerifier_Verify t win = (0, 0, status_no_win).
Proof.
  intros H. apply DoubleColor_no_hits.
  assert (Hp : DoubleColor_pairs t = []); [|unfold DoubleColor_hits; by rewrite Hp].
  apply nil_length_inv. rewrite DoubleColor_pairs_length.
  destruct H as [H|H].
  - rewrite binomial_lt by lia. done.
  - rewrite H. simpl. lia.
Qed.

Lemma DoubleColor_short_row_witness :
  DoubleColorVerifier_Verify
    {| Red := ["02"; "11"; "15"; "21"; "28"]; Blue := ["07"];
       Multiplier := 1; Mode := "" |} draw_2025107
  = (0, 0, status_no_win).
Proof. apply DoubleColor_short_row. left. simpl. lia. Defined.

(** X7. A base row, six reds and one blue, is a single pair: the result
    is the rank and payout of its one table lookup, with nothing summed,
    so the payout is at most 5,000,000. *)
Theorem DoubleColor_base_row (t : UserTicket) (win : WinningNumbers) (b : string) :
  length (Red t) = 6%nat ->
  Blue t = [b] ->
  let tier := default (0, 0)
                (DoubleColor_tier_spec (intersect (Red t) (WinRed win))
                                       (DoubleColor_blueHits_spec win b)) in
  DoubleColorVerifier_Verify t win
  = (tier.1, tier.2, if 0 <? tier.2 then status_win tier.2 else status_no_win)
  /\ 0 <= tier.2 <= 5000000.
Proof.
  intros Hlen Hb tier.
  assert (Hc : combinations (Red t) 6 = [Red t]).
  { rewrite combinations_subseqs by apply int6_range.
    change (Z.to_nat 6) with 6%nat. rewrite <- Hlen. apply subseqs_full. }
  assert (Hh : DoubleColor_hits t win
               = option_list (DoubleColor_tier_spec (intersect (Red t) (WinRed win))
                                (DoubleColor_blueHits_spec win b))).
  { unfold DoubleColor_hits, DoubleColor_pairs. rewrite Hc, Hb.
    unfold DoubleColor_pair_spec. simpl.
    by destruct (DoubleColor_tier_spec _ _). }
  rewrite DoubleColorVerifier_Verify_loops, Hh. subst tier.
  destruct (DoubleColor_tier_spec _ _) as [[l m]|] eqn:E; simpl.
  - apply DoubleColor_tier_spec_range in E as [Hl Hm].
    destruct (Z.ltb_spec 0 m); [|lia]. simpl. rewrite Z.add_0_l.
    rewrite wrap64_id by (unfold in_int64, min_int64, max_int64; lia).
    destruct (Z.ltb_spec 0 m); [|lia]. split; [done|lia].
  - split; [done|lia].
Qed.

Lemma DoubleColor_base_row_witness :
  DoubleColorVerifier_Verify
    {| Red := ["02"; "11"; "15"; "21"; "28"; "30"]; Blue := ["07"];
       Multiplier := 1; Mode := "" |} draw_2025107
  = (3, 3000, "中奖: 3000元").
Proof.
  rewrite (proj1 (DoubleColor_base_row
             {| Red := ["02"; "11"; "15"; "21"; "28"; "30"]; Blue := ["07"];
                Multiplier := 1; Mode := "" |} draw_2025107 "07" eq_refl eq_refl)).
  vm_compute. reflexivity.
Defined.

(** ** What the verifiers do not look at *)

Lemma DoubleColor_hits_ext t win win' :
  (forall p, p ∈ DoubleColor_pairs t ->
             DoubleColor_pair_spec win p = DoubleColor_pair_spec win' p) ->
  DoubleColor_hits t win = DoubleColor_hits t win'.
Proof.
  intros H. unfold DoubleColor_hits.
  induction (DoubleColor_pairs t) as [|p ps IH]; [done|].
  change (omap (DoubleColor_pair_spec win) (p :: ps))
    with (match DoubleColor_pair_spec win p with
          | Some y => y :: omap (DoubleColor_pair_spec win) ps
          | None => omap (DoubleColor_pair_spec win) ps
          end).
  change (omap (DoubleColor_pair_spec win') (p :: ps))
    with (match DoubleColor_pair_spec win' p with
          | Some y => y :: omap (DoubleColor_pair_spec win') ps
          | None => omap (DoubleColor_pair_spec win') ps
          end).
  rewrite (H p) by (by left). rewrite IH; [done|].
  intros q Hq. apply H. by right.
Qed.

(** X9. [DoubleColorVerifier.Verify] reads the winning reds as a set and
    of the winning blues only the first: two drawings with the same set of
    reds and the same first blue give the same result for every row. *)
Theorem DoubleColor_reads_red_set_and_first_blue (t : UserTicket) (win win' : WinningNumbers) :
  (forall x, x ∈ WinRed win <-> x ∈ WinRed win') ->
  head (WinBlue win) = head (WinBlue win') ->
  DoubleColorVerifier_Verify t win = DoubleColorVerifier_Verify t win'.
Proof.
  intros Hred Hblue. rewrite !DoubleColorVerifier_Verify_loops.
  rewrite (DoubleColor_hits_ext t win win'); [done|].
  intros p _. unfold DoubleColor_pair_spec, DoubleColor_blueHits_spec.
  rewrite Hblue. by rewrite (intersect_set_r _ _ _ Hred).
Qed.

Lemma DoubleColor_reads_red_set_and_first_blue_witness :
  let t := {| Red := ["02"; "11"; "15"; "21"; "28"; "33"]; Blue := ["07"];
              Multiplier := 1; Mode := "" |} in
  DoubleColorVerifier_Verify t draw_2025107
  = DoubleColorVerifier_Verify t
      {| WinRed := ["33"; "28"; "21"; "15"; "11"; "02"; "02"]; WinBlue := ["07"; "01"] |}.
Proof.
  intros t. apply DoubleColor_reads_red_set_and_first_blue; [|reflexivity].
  intros x. unfold draw_2025107. simpl. rewrite !elem_of_cons, !elem_of_nil. tauto.
Defined.

(** X8. [LottoVerifier.Verify] is insensitive to order: reordering the
    row's reds or blues, or the winning reds or blues, leaves the result
    unchanged. *)
Theorem Lotto_order_insensitive (t t' : UserTicket) (win win' : WinningNumbers) :
  Red t ≡ₚ Red t' -> Blue t ≡ₚ Blue t' ->
  WinRed win ≡ₚ WinRed win' -> WinBlue win ≡ₚ WinBlue win' ->
  LottoVerifier_Verify t win = LottoVerifier_Verify t' win'.
Proof.
  intros Hr Hb Hwr Hwb. rewrite !LottoVerifier_Verify_tier.
  rewrite (intersect_Permutation_l _ _ _ Hr), (intersect_Permutation_l _ _ _ Hb).
  rewrite (intersect_set_r (Red t') (WinRed win) (WinRed win'))
    by (intros x; by rewrite Hwr).
  rewrite (intersect_set_r (Blue t') (WinBlue win) (WinBlue win'))
    by (intros x; by rewrite Hwb).
  done.
Qed.

Lemma Lotto_order_insensitive_witness :
  LottoVerifier_Verify
    {| Red := ["05"; "04"; "03"; "02"; "01"]; Blue := ["02"; "01"];
       Multiplier := 1; Mode := "" |}
    {| WinRed := ["01"; "02"; "03"; "04"; "05"]; WinBlue := ["01"; "02"] |}
  = LottoVerifier_Verify
      {| Red := ["01"; "02"; "03"; "04"; "05"]; Blue := ["01"; "02"];
         Multiplier := 1; Mode := "" |}
      {| WinRed := ["01"; "02"; "03"; "04"; "05"]; WinBlue := ["01"; "02"] |}.
Proof.
  apply Lotto_order_insensitive; simpl; try reflexivity.
  - change ["05"; "04"; "03"; "02"; "01"] with (reverse ["01"; "02"; "03"; "04"; "05"]).
    apply reverse_Permutation.
  - change ["02"; "01"] with (reverse ["01"; "02"]). apply reverse_Permutation.
Defined.

(** ** The lookup's "no data" value *)

Lemma combinations_elem_sublist (tokens c : list string) :
  c ∈ combinations tokens 6 -> c `sublist_of` tokens.
Proof.
  rewrite combinations_subseqs by apply int6_range. apply subseqs_sublist.
Qed.

Lemma DoubleColor_pairs_elem t (p : list string * string) :
  p ∈ DoubleColor_pairs t -> p.1 `sublist_of` Red t /\ p.2 ∈ Blue t.
Proof.
  unfold DoubleColor_pairs. intros H.
  apply list_elem_of_bind in H as (c & Hp & Hc).
  apply list_elem_of_bind in Hp as (b & Hp & Hb).
  apply list_elem_of_singleton in Hp. subst p. simpl.
  split; [by apply combinations_elem_sublist|done].
Qed.

Lemma DoubleColor_hits_none t win :
  (forall p, p ∈ DoubleColor_pairs t -> DoubleColor_pair_spec win p = None) ->
  DoubleColor_hits t win = [].
Proof.
  intros H. unfold DoubleColor_hits.
  destruct (omap (DoubleColor_pair_spec win) (DoubleColor_pairs t)) as [|h hs] eqn:E; [done|].
  assert (Hin : h ∈ omap (DoubleColor_pair_spec win) (DoubleColor_pairs t))
    by (rewrite E; by left).
  apply list_elem_of_omap in Hin as (p & Hp & Hsome).
  rewrite (H p Hp) in Hsome. discriminate Hsome.
Qed.

Lemma Verify_no_data (v : Verifier) (t : UserTicket) :
  (("00" ∉ Red t) /\ ("00" ∉ Blue t) -> Verify v t no_data = (0, 0, status_no_win))
  /\ Verify Permutation5Verifier t no_data = (0, 0, status_no_win).
Proof.
  assert (Hp5 : Verify Permutation5Verifier t no_data = (0, 0, status_no_win)).
  { simpl Verify. unfold Permutation5Verifier_Verify, Permutation5_match.
    by destruct (length (Red t) =? 5)%nat. }
  split; [|exact Hp5].
  intros [Hr Hb].
  assert (Hred : forall c, c `sublist_of` Red t -> intersect c (WinRed no_data) = 0%nat).
  { intros c Hc. apply intersect_none. intros x Hx Hwin.
    apply list_elem_of_singleton in Hwin. subst x.
    apply Hr. by eapply elem_of_sublist. }
  destruct v; simpl Verify.
  - apply DoubleColor_no_hits, DoubleColor_hits_none.
    intros p Hp. apply DoubleColor_pairs_elem in Hp as [Hc Hblue].
    unfold DoubleColor_pair_spec. rewrite (Hred _ Hc).
    unfold DoubleColor_blueHits_spec. simpl head.
    rewrite bool_decide_eq_false_2; [done|].
    intros [= Heq]. apply Hb. by rewrite Heq.
  - rewrite LottoVerifier_Verify_tier. rewrite (Hred (Red t)) by done.
    rewrite (intersect_none (Blue t) (WinBlue no_data)); [done|].
    intros x Hx Hwin. apply list_elem_of_singleton in Hwin. subst x. done.
  - exact Hp5.
Qed.

(** X10. Against the lookup's "no data" value, reds ["00"] and blues
    ["00"], a row that does not contain the token "00" wins nothing under
    any of the three verifiers; under [Permutation5Verifier] no row wins. *)
Theorem no_data_never_wins (v : Verifier) (t : UserTicket) :
  (("00" ∉ Red t) /\ ("00" ∉ Blue t) -> Verify v t no_data = (0, 0, status_no_win))
  /\ Verify Permutation5Verifier t no_data = (0, 0, status_no_win).
Proof. apply Verify_no_data. Qed.

Lemma no_data_never_wins_witness :
  Verify DoubleColorVerifier
    {| Red := ["02"; "11"; "15"; "21"; "28"; "33"; "01"]; Blue := ["07"];
       Multiplier := 1; Mode := "" |} no_data
  = (0, 0, status_no_win).
Proof.
  apply (proj1 (no_data_never_wins DoubleColorVerifier
                  {| Red := ["02"; "11"; "15"; "21"; "28"; "33"; "01"]; Blue := ["07"];
                     Multiplier := 1; Mode := "" |})).
  simpl. split.
  - rewrite !elem_of_cons, elem_of_nil. intros H.
    repeat (destruct H as [H|H]; [discriminate H|]). exact H.
  - rewrite !elem_of_cons, elem_of_nil. intros H.
    repeat (destruct H as [H|H]; [discriminate H|]). exact H.
Defined.

(** ** The row loop and the handler *)

Lemma wrap64_add_r a b : wrap64 (a + wrap64 b) = wrap64 (a + b).
Proof. rewrite Z.add_comm, wrap64_add_l. f_equal. lia. Qed.

Lemma verify_lottery_supported TrimSpace (idx : nat) (lottery : LotteryData) (v : Verifier) :
  select_verifier (Type_ lottery) = Some v ->
  let win := getMockWinningNumber TrimSpace (Type_ lottery) (Issue lottery) in
  verify_lottery TrimSpace idx lottery
  = {| TicketIndex := Z.of_nat idx + 1; OCRData := lottery;
       TotalPrize := wrap64 (sum_Z (map (row_total v win) (Tickets lottery)));
       Details := imap (row_detail v win) (Tickets lottery) |}.
Proof.
  intros Hsel win. unfold verify_lottery. rewrite Hsel. fold win.
  rewrite verify_rows_spec. cbn [TicketIndex OCRData TotalPrize Details app].
  f_equal.
  apply (foldl_wrap64_sum (row_total v win)).
  unfold in_int64, min_int64, max_int64. lia.
Qed.

Lemma row_detail_shift v win (k j : nat) t :
  row_detail v win (k + j) t = shift_row k (row_detail v win j t).
Proof. unfold row_detail, shift_row. simpl. f_equal. lia. Qed.

(** X12. Rows are scored independently and in order: the details of a
    ticket whose rows are [rows1 ++ rows2] are the details of [rows1]
    followed by those of [rows2] with their row numbers moved up by the
    length of [rows1]; the total is the wrapped sum of the two totals; and
    the row numbers are 1, 2, ..., one per row. *)
Theorem rows_scored_independently (TrimSpace : string -> string) (idx : nat)
    (ty issue : string) (rows1 rows2 : list UserTicket) (v : Verifier) :
  select_verifier ty = Some v ->
  let ticket rows :=
    verify_lottery TrimSpace idx {| Type_ := ty; Issue := issue; Tickets := rows |} in
  Details (ticket (rows1 ++ rows2))
  = Details (ticket rows1) ++ map (shift_row (length rows1)) (Details (ticket rows2))
  /\ TotalPrize (ticket (rows1 ++ rows2))
     = wrap64 (TotalPrize (ticket rows1) + TotalPrize (ticket rows2))
  /\ map RowIndex (Details (ticket rows1))
     = map (fun j => Z.of_nat j + 1) (seq 0 (length rows1)).
Proof.
  intros Hsel ticket. subst ticket. cbv beta.
  rewrite !(verify_lottery_supported TrimSpace idx _ v) by exact Hsel.
  cbn [Details TotalPrize Tickets Type_ Issue].
  set (win := getMockWinningNumber TrimSpace ty issue).
  split; [|split].
  - rewrite imap_app. f_equal.
    apply list_eq. intros j.
    rewrite list_lookup_fmap, !list_lookup_imap.
    destruct (rows2 !! j) as [t|]; simpl; [|done].
    by rewrite row_detail_shift.
  - rewrite map_app, sum_Z_app, wrap64_add_l, wrap64_add_r. done.
  - apply list_eq. intros j.
    rewrite !list_lookup_fmap, list_lookup_imap.
    destruct (rows1 !! j) as [t|] eqn:E; simpl.
    + apply lookup_lt_Some in E. rewrite lookup_seq_lt by done. done.
    + apply lookup_ge_None in E. rewrite lookup_seq_ge by done. done.
Qed.

Lemma rows_scored_independently_witness :
  let row1 := {| Red := ["02"; "11"; "15"; "21"; "28"; "33"]; Blue := ["06"];
                 Multiplier := 1; Mode := "" |} in
  let row2 := {| Red := ["02"; "11"; "15"; "21"; "28"; "30"]; Blue := ["07"];
                 Multiplier := 2; Mode := "" |} in
  map RowIndex
    (Details (verify_lottery (fun s => s) 0
                {| Type_ := "双色球"; Issue := "2025107"; Tickets := [row1; row2] |}))
  = [1; 2].
Proof.
  intros row1 row2.
  exact (proj2 (proj2 (rows_scored_independently (fun s => s) 0 "双色球" "2025107"
                         [row1; row2] [] DoubleColorVerifier eq_refl))).
Defined.

Lemma Verify_payout_in_int64 v t win : in_int64 (Verify v t win).1.2.
Proof.
  destruct v; simpl Verify.
  - rewrite DoubleColor_total_wrap. apply wrap64_range.
  - rewrite LottoVerifier_Verify_tier. simpl.
    pose proof (Lotto_tier_range (intersect (Red t) (WinRed win))
                                 (intersect (Blue t) (WinBlue win))) as H.
    destruct (Lotto_tier _ _) as [l m]. simpl.
    unfold in_int64, min_int64, max_int64. lia.
  - unfold Permutation5Verifier_Verify.
    destruct (Permutation5_match t win); simpl;
      unfold in_int64, min_int64, max_int64; lia.
Qed.

(** X13. The multiplier is applied as it comes, without validation: the
    detail of a row carries the verifier's rank and status whatever the
    multiplier is; with multiplier 1 its prize is the verifier's payout,
    and with multiplier 0 its prize is 0 even when rank and status report
    a win. *)
Theorem multiplier_not_validated (TrimSpace : string -> string) (idx : nat)
    (lottery : LotteryData) (v : Verifier) (j : nat) (t : UserTicket) :
  select_verifier (Type_ lottery) = Some v ->
  Tickets lottery !! j = Some t ->
  let win := getMockWinningNumber TrimSpace (Type_ lottery) (Issue lottery) in
  exists d,
    Details (verify_lottery TrimSpace idx lottery) !! j = Some d
    /\ RowIndex d = Z.of_nat j + 1
    /\ Level d = (Verify v t win).1.1
    /\ Status d = (Verify v t win).2
    /\ (Multiplier t = 1 -> Prize d = (Verify v t win).1.2)
    /\ (Multiplier t = 0 -> Prize d = 0).
Proof.
  intros Hsel Ht win.
  rewrite (verify_lottery_supported TrimSpace idx lottery v Hsel).
  cbn [Details]. fold win. exists (row_detail v win j t).
  split; [by rewrite list_lookup_imap, Ht|].
  unfold row_detail, row_total. cbn [RowIndex Level Status Prize].
  repeat split; try done.
  - intros ->. rewrite Z.mul_1_r. apply wrap64_id, Verify_payout_in_int64.
  - intros ->. rewrite Z.mul_0_r. reflexivity.
Qed.

Lemma multiplier_not_validated_witness :
  exists d,
    Details (verify_lottery (fun s => s) 0
               {| Type_ := "双色球"; Issue := "2025107";
                  Tickets := [ {| Red := ["02"; "11"; "15"; "21"; "28"; "33"];
                                  Blue := ["07"]; Multiplier := 0; Mode := "" |} ] |})
      !! 0%nat = Some d
    /\ Level d = 1 /\ Prize d = 0.
Proof.
  destruct (multiplier_not_validated (fun s => s) 0
              {| Type_ := "双色球"; Issue := "2025107";
                 Tickets := [ {| Red := ["02"; "11"; "15"; "21"; "28"; "33"];
                                 Blue := ["07"]; Multiplier := 0; Mode := "" |} ] |}
              DoubleColorVerifier 0
              {| Red := ["02"; "11"; "15"; "21"; "28"; "33"];
                 Blue := ["07"]; Multiplier := 0; Mode := "" |}
              eq_refl eq_refl) as (d & Hd & _ & Hl & _ & _ & Hp).
  exists d. split; [exact Hd|]. split.
  - rewrite Hl. vm_compute. reflexivity.
  - apply Hp. reflexivity.
Defined.

Lemma getMockWinningNumber_no_data TrimSpace (ty issue : string) :
  ~ occurs_in label_DoubleColor ty ->
  getMockWinningNumber TrimSpace ty issue = no_data.
Proof.
  intros H. unfold getMockWinningNumber.
  destruct (strings_Contains ty label_DoubleColor) eqn:E; [|done].
  exfalso. apply H. by apply strings_Contains_spec.
Qed.

(** X11. The mock lookup knows DoubleColor drawings only: a ticket whose
    game label does not contain the DoubleColor label is scored against the
    "no data" value, so if none of its rows contains the token "00" every
    detail has level 0 and prize 0 and the ticket total is 0, whatever the
    issue and the multipliers. *)
Theorem non_DoubleColor_ticket_wins_nothing (TrimSpace : string -> string) (idx : nat)
    (lottery : LotteryData) :
  ~ occurs_in label_DoubleColor (Type_ lottery) ->
  Forall (fun t => ("00" ∉ Red t) /\ ("00" ∉ Blue t)) (Tickets lottery) ->
  getMockWinningNumber TrimSpace (Type_ lottery) (Issue lottery) = no_data
  /\ TotalPrize (verify_lottery TrimSpace idx lottery) = 0
  /\ Forall (fun d => Level d = 0 /\ Prize d = 0)
            (Details (verify_lottery TrimSpace idx lottery)).
Proof.
  intros Hty Hrows.
  pose proof (getMockWinningNumber_no_data TrimSpace _ (Issue lottery) Hty) as Hwin.
  split; [exact Hwin|].
  destruct (select_verifier (Type_ lottery)) as [v|] eqn:Hsel.
  - rewrite (verify_lottery_supported TrimSpace idx lottery v Hsel).
    cbn [TotalPrize Details]. rewrite Hwin.
    assert (Hrow : forall t, t ∈ Tickets lottery ->
                     Verify v t no_data = (0, 0, status_no_win)).
    { intros t Ht. rewrite Forall_forall in Hrows.
      apply (proj1 (Verify_no_data v t)), Hrows, Ht. }
    split.
    + assert (sum_Z (map (row_total v no_data) (Tickets lottery)) = 0) as ->;
        [|reflexivity].
      induction (Tickets lottery) as [|t ts IH]; [done|].
      simpl. rewrite IH.
      * unfold row_total. rewrite Hrow by (by left). reflexivity.
      * by inversion Hrows.
      * intros t' Ht'. apply Hrow. by right.
    + apply Forall_forall. intros d Hd.
      apply list_elem_of_lookup in Hd as [j Hd].
      rewrite list_lookup_imap in Hd.
      destruct (Tickets lottery !! j) as [t|] eqn:Ht; [|discriminate Hd].
      simpl in Hd. injection Hd as <-.
      unfold row_detail, row_total. cbn [Level Prize].
      rewrite Hrow by (by eapply list_elem_of_lookup_2). split; reflexivity.
  - unfold verify_lottery. rewrite Hsel. cbn [TotalPrize Details app].
    split; [done|]. apply Forall_singleton. split; reflexivity.
Qed.

Lemma non_DoubleColor_ticket_wins_nothing_witness :
  TotalPrize (verify_lottery (fun s => s) 0
                {| Type_ := "大乐透"; Issue := "25001";
                   Tickets := [ {| Red := ["01"; "02"; "03"; "04"; "05"];
                                   Blue := ["01"; "02"]; Multiplier := 1; Mode := "" |} ] |})
  = 0.
Proof.
  apply non_DoubleColor_ticket_wins_nothing.
  - intros H. apply strings_Contains_spec in H. vm_compute in H. discriminate H.
  - apply Forall_singleton. simpl. split.
    + rewrite !elem_of_cons, elem_of_nil. intros H.
      repeat (destruct H as [H|H]; [discriminate H|]). exact H.
    + rewrite !elem_of_cons, elem_of_nil. intros H.
      repeat (destruct H as [H|H]; [discriminate H|]). exact H.
Defined.

(** X14. The handler answers 200 exactly when a file was uploaded, the API
    key is not empty and recognition succeeded; the body then has one
    result per recognized ticket, in order, numbered from 1 and carrying
    that ticket's data. Without a file it answers 400 whatever the key; in
    the remaining cases 500. *)
Theorem verifyHandler_responses (TrimSpace : string -> string)
    (ocr : string -> string -> list LotteryData + string)
    (image : option string) (key : string) :
  match verifyHandler TrimSpace ocr image key with
  | JSON_ok code body =>
      code = 200
      /\ exists fileBytes results,
           image = Some fileBytes /\ key <> "" /\ ocr fileBytes key = inl results
           /\ length body = length results
           /\ forall (i : nat) lottery,
                results !! i = Some lottery ->
                exists res, body !! i = Some res
                            /\ TicketIndex res = Z.of_nat i + 1
                            /\ OCRData res = lottery
  | JSON_error code msg =>
      (code = 400 /\ image = None)
      \/ (code = 500
          /\ exists fileBytes,
               image = Some fileBytes
               /\ (key = "" \/ exists err, ocr fileBytes key = inr err))
  end.
Proof.
  unfold verifyHandler. destruct image as [fileBytes|]; [|by left].
  destruct (decide (key = "")) as [Hk|Hk].
  - rewrite bool_decide_eq_true_2 by done. right. split; [done|].
    exists fileBytes. split; [done|by left].
  - rewrite bool_decide_eq_false_2 by done.
    destruct (ocr fileBytes key) as [results|err] eqn:E.
    + split; [done|]. exists fileBytes, results.
      split; [done|]. split; [done|]. split; [done|].
      split; [apply length_imap|].
      intros i lottery Hi. exists (verify_lottery TrimSpace i lottery).
      rewrite list_lookup_imap, Hi. split; [done|].
      unfold verify_lottery.
      destruct (select_verifier (Type_ lottery)) as [v|].
      * rewrite verify_rows_spec. done.
      * done.
    + right. split; [done|]. exists fileBytes. split; [done|]. right. by exists err.
Qed.

Lemma verifyHandler_responses_witness :
  match verifyHandler (fun s => s) (fun _ _ => inl []) None "key" with
  | JSON_error code _ => code = 400
  | JSON_ok _ _ => False
  end.
Proof.
  pose proof (verifyHandler_responses (fun s => s) (fun _ _ => inl []) None "key") as H.
  destruct (verifyHandler (fun s => s) (fun _ _ => inl []) None "key").
  - destruct H as [[H _]|[_ (fb & Hfb & _)]]; [exact H|discriminate Hfb].
  - destruct H as (_ & fb & r & Hfb & _). discriminate Hfb.
Defined.

(** ** Token normalization: [anyToString] *)

Lemma pretty_N_char_nonzero (x : N) :
  (0 < x < 10)%N -> pretty_N_char x <> digit_char 0.
Proof.
  intros Hx.
  assert (x = 1 \/ x = 2 \/ x = 3 \/ x = 4 \/ x = 5 \/ x = 6 \/ x = 7 \/ x = 8 \/ x = 9)%N
    as H by lia.
  repeat (destruct H as [->|H]; [vm_compute; discriminate|]).
  subst x. vm_compute. discriminate.
Qed.

(** The digits of a positive number begin with a digit other than 0. *)
Lemma pretty_N_go_lead (x : N) (s : string) :
  (0 < x)%N ->
  exists c rest, pretty_N_go x s = String c rest
                 /\ c <> digit_char 0
                 /\ (String.length s <= String.length rest)%nat.
Proof.
  revert s. induction (N.lt_wf_0 x) as [x _ IH]. intros s Hx.
  rewrite pretty_N_go_step by done.
  destruct (decide (x `div` 10 = 0)%N) as [Hd|Hd].
  - rewrite Hd, pretty_N_go_0.
    assert (x < 10)%N by (apply (N.div_small_iff x 10); [lia|done]).
    rewrite N.mod_small by done.
    eexists _, _. split; [reflexivity|]. split; [|done].
    apply pretty_N_char_nonzero. lia.
  - assert (Hlt : (x `div` 10 < x)%N) by (apply N.div_lt; lia).
    assert (Hpos : (0 < x `div` 10)%N) by (apply N.neq_0_lt_0; exact Hd).
    destruct (IH (x `div` 10)%N Hlt
                 (String (pretty_N_char (x `mod` 10)) s) Hpos)
      as (c & rest & Heq & Hc & Hlen).
    exists c, rest. split; [done|]. split; [done|]. simpl in Hlen. lia.
Qed.

Lemma pretty_Z_pos (z : Z) : 0 < z -> pretty z = pretty_N_go (Z.to_N z) "".
Proof. destruct z as [|p|p]; intros Hz; try lia. reflexivity. Qed.

Lemma pretty_Z_neg (z : Z) : z < 0 -> pretty z = "-" +:+ pretty (- z).
Proof. destruct z as [|p|p]; intros Hz; try lia. reflexivity. Qed.

Lemma pretty_Z_length (z : Z) : (1 <= String.length (pretty z))%nat.
Proof.
  destruct (Z.lt_trichotomy z 0) as [Hz|[->|Hz]].
  - rewrite pretty_Z_neg by done.
    unfold String.app. simpl. lia.
  - vm_compute. lia.
  - rewrite pretty_Z_pos by done.
    destruct (pretty_N_go_lead (Z.to_N z) "" ltac:(lia)) as (c & rest & -> & _).
    simpl. lia.
Qed.

Lemma zero_pad_long (width : nat) (digits : string) :
  (width <= String.length digits)%nat -> zero_pad width digits = digits.
Proof.
  intros H. unfold zero_pad.
  replace (width - String.length digits)%nat with 0%nat by lia. reflexivity.
Qed.

Lemma Sprintf_02d_neg (z : Z) : z < 0 -> Sprintf_02d z = pretty z.
Proof.
  intros Hz. unfold Sprintf_02d. destruct (Z.ltb_spec z 0); [|lia].
  rewrite zero_pad_long by apply pretty_Z_length.
  by rewrite <- pretty_Z_neg.
Qed.

Lemma Sprintf_02d_small (z : Z) : 0 <= z < 10 -> Sprintf_02d z = "0" +:+ pretty z.
Proof.
  intros Hz.
  assert (z = 0 \/ z = 1 \/ z = 2 \/ z = 3 \/ z = 4 \/ z = 5 \/ z = 6 \/ z = 7
          \/ z = 8 \/ z = 9) as H by lia.
  repeat (destruct H as [->|H]; [vm_compute; reflexivity|]).
  subst z. vm_compute. reflexivity.
Qed.

Lemma Sprintf_02d_large (z : Z) : 10 <= z -> Sprintf_02d z = pretty z.
Proof.
  intros Hz. unfold Sprintf_02d. destruct (Z.ltb_spec z 0); [lia|].
  apply zero_pad_long. rewrite pretty_Z_pos by lia.
  rewrite pretty_N_go_step by lia.
  destruct (pretty_N_go_lead (Z.to_N z `div` 10)
              (String (pretty_N_char (Z.to_N z `mod` 10)) ""))
    as (c & rest & -> & _ & Hlen).
  - apply N.div_str_pos. lia.
  - simpl in *. lia.
Qed.

Lemma Sprintf_02d_length (z : Z) : (2 <= String.length (Sprintf_02d z))%nat.
Proof.
  destruct (Z.lt_trichotomy z 0) as [Hz|[->|Hz]]; [|vm_compute; lia|].
  - rewrite Sprintf_02d_neg, pretty_Z_neg by done.
    pose proof (pretty_Z_length (- z)).
    unfold String.app. simpl. lia.
  - destruct (Z.lt_ge_cases z 10).
    + rewrite Sprintf_02d_small by lia.
      pose proof (pretty_Z_length z). unfold String.app. simpl. lia.
    + rewrite Sprintf_02d_large by done.
      rewrite pretty_Z_pos by lia. rewrite pretty_N_go_step by lia.
      destruct (pretty_N_go_lead (Z.to_N z `div` 10)
                  (String (pretty_N_char (Z.to_N z `mod` 10)) ""))
        as (c & rest & -> & _ & Hlen).
      * apply N.div_str_pos. lia.
      * simpl in *. lia.
Qed.

Lemma Sprintf_02d_inj (z1 z2 : Z) : Sprintf_02d z1 = Sprintf_02d z2 -> z1 = z2.
Proof.
  assert (Hdash : forall z x, 0 <= z -> Sprintf_02d z <> "-" +:+ x).
  { intros z x Hz Heq. destruct (Z.lt_ge_cases z 10).
    - rewrite Sprintf_02d_small in Heq by lia. discriminate Heq.
    - rewrite Sprintf_02d_large, pretty_Z_pos in Heq by lia.
      by eapply pretty_N_go_ne_dash in Heq. }
  assert (Hzero : forall z x, 10 <= z -> Sprintf_02d z <> "0" +:+ x).
  { intros z x Hz Heq. rewrite Sprintf_02d_large, pretty_Z_pos in Heq by lia.
    destruct (pretty_N_go_lead (Z.to_N z) "" ltac:(lia)) as (c & rest & Hc & Hne & _).
    rewrite Hc in Heq. injection Heq as Hc0 _. by apply Hne. }
  intros Heq.
  destruct (Z.lt_ge_cases z1 0) as [H1|H1]; destruct (Z.lt_ge_cases z2 0) as [H2|H2].
  - rewrite !Sprintf_02d_neg in Heq by done. by apply (inj pretty).
  - rewrite Sprintf_02d_neg, pretty_Z_neg in Heq by done.
    symmetry in Heq. by apply Hdash in Heq.
  - rewrite (Sprintf_02d_neg z2), pretty_Z_neg in Heq by done.
    by apply Hdash in Heq.
  - destruct (Z.lt_ge_cases z1 10) as [S1|L1]; destruct (Z.lt_ge_cases z2 10) as [S2|L2].
    + rewrite !Sprintf_02d_small in Heq by lia.
      apply (inj (String.app "0")) in Heq. by apply (inj pretty).
    + rewrite (Sprintf_02d_small z1) in Heq by lia.
      symmetry in Heq. by apply Hzero in Heq.
    + rewrite (Sprintf_02d_small z2) in Heq by lia. by apply Hzero in Heq.
    + rewrite !Sprintf_02d_large in Heq by done. by apply (inj pretty).
Qed.

Lemma Sprintf_02d_two_digits (z : Z) : 0 <= z <= 99 -> Sprintf_02d z = two_digits z.
Proof.
  intros Hz.
  assert (Hall : Forall (fun n => Sprintf_02d (Z.of_nat n) = two_digits (Z.of_nat n))
                        (seq 0 100)).
  { refine (bool_decide_unpack _ _). vm_compute. exact I. }
  rewrite Forall_forall in Hall.
  rewrite <- (Z2Nat.id z) by lia. apply Hall.
  apply elem_of_seq. lia.
Qed.

Section Tokens.
Variable TrimSpace : string -> string.
Variable float64 : Type.
Variable float64_to_int : float64 -> Z.
Variable other : Type.
Variable Sprintf_v : other -> string.

(** X15. A number from 0 to 99, whether it was decoded as an integer or
    as a [float64] that converts to it, becomes the token made of its two
    decimal digits, a leading 0 included. *)
Theorem anyToString_two_digits (z : Z) :
  0 <= z <= 99 ->
  anyToString TrimSpace float64 float64_to_int other Sprintf_v (any_int _ _ z) = two_digits z
  /\ (forall f : float64, float64_to_int f = z ->
        anyToString TrimSpace float64 float64_to_int other Sprintf_v (any_float64 _ _ f)
        = two_digits z).
Proof.
  intros Hz. split.
  - by apply Sprintf_02d_two_digits.
  - intros f Hf. simpl. rewrite Hf. by apply Sprintf_02d_two_digits.
Qed.

(** X16. The token of a number depends only on the integer it converts
    to. Two numbers, each decoded as a [float64] (as every JSON number is)
    or held as an [int], get the same token exactly when they convert to the
    same integer, so two floats with the same conversion [int(v)] share a
    token; and the token of a number has at least two characters. *)
Theorem anyToString_numbers_distinct (f1 f2 : float64) (z1 z2 : Z) :
  let convert := anyToString TrimSpace float64 float64_to_int other Sprintf_v in
  (convert (any_float64 _ _ f1) = convert (any_float64 _ _ f2)
   <-> float64_to_int f1 = float64_to_int f2)
  /\ (convert (any_float64 _ _ f1) = convert (any_int _ _ z2)
      <-> float64_to_int f1 = z2)
  /\ (convert (any_int _ _ z1) = convert (any_int _ _ z2) <-> z1 = z2)
  /\ (2 <= String.length (convert (any_float64 _ _ f1)))%nat
  /\ (2 <= String.length (convert (any_int _ _ z1)))%nat.
Proof.
  intros convert. subst convert. cbn [anyToString].
  repeat split; try apply Sprintf_02d_inj; try apply Sprintf_02d_length;
    by intros ->.
Qed.

End Tokens.

Lemma anyToString_two_digits_witness :
  anyToString (fun s => s) unit (fun _ => 7) unit (fun _ => "") (any_int unit unit 2) = "02"
  /\ anyToString (fun s => s) unit (fun _ => 7) unit (fun _ => "") (any_float64 unit unit tt)
     = "07".
Proof.
  split.
  - apply (anyToString_two_digits (fun s => s) unit (fun _ => 7) unit (fun _ => "") 2).
    lia.
  - apply (anyToString_two_digits (fun s => s) unit (fun _ => 7) unit (fun _ => "") 7);
      [lia|reflexivity].
Defined.

Lemma anyToString_numbers_distinct_witness :
  anyToString (fun s => s) Z (fun v => v) unit (fun _ => "") (any_float64 Z unit 2)
  <> anyToString (fun s => s) Z (fun v => v) unit (fun _ => "") (any_float64 Z unit 20)
  /\ anyToString (fun s => s) Z (fun v => v) unit (fun _ => "") (any_float64 Z unit 7)
     = anyToString (fun s => s) Z (fun v => v) unit (fun _ => "") (any_int Z unit 7).
Proof.
  split.
  - intros H.
    apply (anyToString_numbers_distinct (fun s => s) Z (fun v => v) unit (fun _ => "")
             2 20 0 0) in H.
    discriminate H.
  - apply (anyToString_numbers_distinct (fun s => s) Z (fun v => v) unit (fun _ => "")
             7 7 0 7).
    reflexivity.
Defined.

(** ** Code fences around the recognizer's JSON *)

Lemma string_length_app (s1 s2 : string) :
  String.length (s1 +:+ s2) = (String.length s1 + String.length s2)%nat.
Proof. induction s1 as [|a s1 IH]; [done|]. unfold String.app in *. simpl. by rewrite IH. Qed.

Lemma string_app_assoc (s1 s2 s3 : string) : (s1 +:+ s2) +:+ s3 = s1 +:+ s2 +:+ s3.
Proof.
  induction s1 as [|a s1 IH]; [done|]. unfold String.app in *. simpl. by rewrite IH.
Qed.

Lemma substring_all (s : string) : String.substring 0 (String.length s) s = s.
Proof. induction s as [|a s IH]; [done|]. simpl. by rewrite IH. Qed.

Lemma substring_0_0 (s : string) : String.substring 0 0 s = "".
Proof. by destruct s. Qed.

(** Dropping a prefix of known length. *)
Lemma substring_drop_app (p x : string) (m : nat) :
  String.substring (String.length p) m (p +:+ x) = String.substring 0 m x.
Proof. induction p as [|a p IH]; [done|]. unfold String.app in *. simpl. exact IH. Qed.

(** Keeping everything before a suffix of known length. *)
Lemma substring_take_app (x suf : string) :
  String.substring 0 (String.length x) (x +:+ suf) = x.
Proof.
  induction x as [|a x IH]; [apply substring_0_0|].
  unfold String.app in *. simpl. by rewrite IH.
Qed.

Lemma substring_split (s : string) (n : nat) :
  (n <= String.length s)%nat ->
  s = String.substring 0 n s +:+ String.substring n (String.length s - n) s.
Proof.
  revert n. induction s as [|a s IH]; intros n Hn.
  - simpl in Hn. assert (n = 0)%nat as -> by lia. reflexivity.
  - destruct n as [|n].
    + rewrite substring_0_0. simpl String.length. rewrite Nat.sub_0_r.
      change (String a s = String.substring 0 (String.length (String a s)) (String a s)).
      by rewrite substring_all.
    + simpl in Hn. simpl String.substring. simpl String.length.
      unfold String.app. simpl. f_equal. apply IH. lia.
Qed.

Lemma strings_TrimPrefix_app (p x : string) : strings_TrimPrefix (p +:+ x) p = x.
Proof.
  unfold strings_TrimPrefix.
  rewrite (proj2 (String_prefix_spec p (p +:+ x))) by (by exists x).
  rewrite substring_drop_app, string_length_app.
  replace (String.length p + String.length x - String.length p)%nat
    with (String.length x) by lia.
  apply substring_all.
Qed.

Lemma strings_TrimPrefix_none (p s : string) :
  ~ starts_with p s -> strings_TrimPrefix s p = s.
Proof.
  intros H. unfold strings_TrimPrefix.
  destruct (String.prefix p s) eqn:E; [|done].
  exfalso. apply H. by apply String_prefix_spec.
Qed.

Lemma strings_HasSuffix_spec (s suf : string) :
  strings_HasSuffix s suf = true <-> ends_with suf s.
Proof.
  unfold strings_HasSuffix, ends_with. split.
  - intros [Hlen Heq]%andb_true_iff.
    apply Nat.leb_le in Hlen. apply String.eqb_eq in Heq.
    exists (String.substring 0 (String.length s - String.length suf) s).
    rewrite (substring_split s (String.length s - String.length suf)) at 1 by lia.
    f_equal. rewrite <- Heq at 3. f_equal. lia.
  - intros [x ->]. apply andb_true_iff. split.
    + apply Nat.leb_le. rewrite string_length_app. lia.
    + apply String.eqb_eq. rewrite string_length_app.
      replace (String.length x + String.length suf - String.length suf)%nat
        with (String.length x) by lia.
      rewrite substring_drop_app. apply substring_all.
Qed.

Lemma strings_TrimSuffix_app (x suf : string) : strings_TrimSuffix (x +:+ suf) suf = x.
Proof.
  unfold strings_TrimSuffix.
  rewrite (proj2 (strings_HasSuffix_spec (x +:+ suf) suf)) by (by exists x).
  rewrite string_length_app.
  replace (String.length x + String.length suf - String.length suf)%nat
    with (String.length x) by lia.
  apply substring_take_app.
Qed.

Lemma strings_TrimSuffix_none (s suf : string) :
  ~ ends_with suf s -> strings_TrimSuffix s suf = s.
Proof.
  intros H. unfold strings_TrimSuffix.
  destruct (strings_HasSuffix s suf) eqn:E; [|done].
  exfalso. apply H. by apply strings_HasSuffix_spec.
Qed.

Lemma starts_with_app (p q s : string) : starts_with (p +:+ q) s -> starts_with p s.
Proof. intros [rest ->]. exists (q +:+ rest). apply string_app_assoc. Qed.

Lemma ends_with_app (p q s : string) : ends_with (p +:+ q) s -> ends_with q s.
Proof. intros [front ->]. exists (front +:+ p). by rewrite string_app_assoc. Qed.

(** X18. A text that neither begins nor ends with a backquote comes out
    of the trimming unchanged, and comes out bare when it was wrapped in a
    ```json ... ``` fence; wrapped in a plain ``` ... ``` fence it comes
    out bare provided it does not begin with the letter j. *)
Theorem strip_fences_unwraps (body : string) :
  ~ starts_with "`" body ->
  ~ ends_with "`" body ->
  strip_fences body = body
  /\ strip_fences ("```json" +:+ body +:+ "```") = body
  /\ (~ starts_with "j" body -> strip_fences ("```" +:+ body +:+ "```") = body).
Proof.
  intros Hs He.
  assert (Hsuf : strings_TrimSuffix (body +:+ "```") "```" = body)
    by apply strings_TrimSuffix_app.
  assert (Hmid : strings_TrimSuffix (strings_TrimPrefix (body +:+ "```") "```") "```" = body).
  { destruct body as [|c r]; [reflexivity|].
    rewrite strings_TrimPrefix_none; [exact Hsuf|].
    intros [rest Heq]. apply Hs. exists r.
    unfold String.app in *. simpl in *. injection Heq as -> _. reflexivity. }
  unfold strip_fences. split; [|split].
  - rewrite (strings_TrimPrefix_none "```json" body)
      by (intros H; apply Hs; apply (starts_with_app "`" "``json"); exact H).
    rewrite (strings_TrimPrefix_none "```" body)
      by (intros H; apply Hs; apply (starts_with_app "`" "``"); exact H).
    apply strings_TrimSuffix_none. intros H. apply He.
    apply (ends_with_app "``" "`"). exact H.
  - rewrite strings_TrimPrefix_app. exact Hmid.
  - intros Hj.
    rewrite (strings_TrimPrefix_none "```json").
    + rewrite strings_TrimPrefix_app. exact Hsuf.
    + intros [rest Heq]. unfold String.app in Heq. simpl in Heq.
      injection Heq as Heq.
      destruct body as [|c r]; [discriminate Heq|].
      apply Hj. exists r. simpl in Heq. injection Heq as -> _. reflexivity.
Qed.

Lemma strip_fences_unwraps_witness :
  strip_fences "```json[{}]```" = "[{}]".
Proof.
  assert (Hs : ~ starts_with "`" "[{}]").
  { intros [rest H]. discriminate H. }
  assert (He : ~ ends_with "`" "[{}]").
  { intros [front H].
    assert (Hsuf : strings_HasSuffix "[{}]" "`" = true)
      by (apply strings_HasSuffix_spec; by exists front).
    vm_compute in Hsuf. discriminate Hsuf. }
  exact (proj1 (proj2 (strip_fences_unwraps "[{}]" Hs He))).
Defined.

(** ** Consistency of a ticket's result *)

(** X19. For every ticket, supported or not, the total is the [int64]
    sum of the prizes listed in its details, and it lies in the [int64]
    range. *)
Theorem total_is_sum_of_details (TrimSpace : string -> string) (idx : nat)
    (lottery : LotteryData) :
  let res := verify_lottery TrimSpace idx lottery in
  TotalPrize res = wrap64 (sum_Z (map Prize (Details res)))
  /\ in_int64 (TotalPrize res).
Proof.
  intros res. subst res.
  destruct (select_verifier (Type_ lottery)) as [v|] eqn:Hsel.
  - rewrite (verify_lottery_supported TrimSpace idx lottery v Hsel).
    cbn [TotalPrize Details]. split; [|apply wrap64_range].
    f_equal. f_equal.
    set (win := getMockWinningNumber TrimSpace (Type_ lottery) (Issue lottery)).
    apply list_eq. intros j.
    change map with (@fmap list _). rewrite !list_lookup_fmap, list_lookup_imap.
    by destruct (Tickets lottery !! j).
  - unfold verify_lottery. rewrite Hsel. cbn [TotalPrize Details app].
    split; [reflexivity|]. unfold in_int64, min_int64, max_int64. lia.
Qed.

(** ** Combinations of a row without repeated tokens *)

Lemma sublist_NoDup {A : Type} (c l : list A) : c `sublist_of` l -> NoDup l -> NoDup c.
Proof.
  induction 1 as [|x c l Hsub IH|x c l Hsub IH]; intros Hl.
  - apply NoDup_nil_2.
  - apply NoDup_cons in Hl as [Hx Hl]. apply NoDup_cons. split; [|by apply IH].
    intros Hin. apply Hx. by eapply elem_of_sublist.
  - apply NoDup_cons in Hl as [_ Hl]. by apply IH.
Qed.

(** X20. When the row has no repeated token, no combination repeats a
    token and no combination occurs twice. *)
Theorem combinations_of_distinct_tokens (tokens : list string) (r : Z) :
  0 <= r <= max_int64 ->
  NoDup tokens ->
  NoDup (combinations tokens r) /\ Forall NoDup (combinations tokens r).
Proof.
  intros Hr Hnd. rewrite combinations_subseqs by done. split.
  - by apply subseqs_NoDup.
  - apply Forall_forall. intros c Hc.
    eapply sublist_NoDup; [|exact Hnd]. by eapply subseqs_sublist.
Qed.

Lemma combinations_of_distinct_tokens_witness :
  NoDup (combinations ["01"; "02"; "03"; "04"] 2).
Proof.
  apply combinations_of_distinct_tokens.
  - unfold max_int64. lia.
  - apply string_list_NoDup_dec. vm_compute. reflexivity.
Defined.
